(** * goreleases: Fetch, the download / verify / extract pipeline

    A shallow embedding of [fetch.go] (package goreleases).  The functions of
    the package ([Fetch], [hashReader.Read], [dstName], [store]) are
    translated from their Go text.  The Go standard library they call
    (package [path], [strings], [io], [os], [net/http], [archive/tar],
    [compress/gzip], [crypto/sha256]) is the environment: pure helpers are
    modelled after the library's code, the operating system is an interface
    ([OS]) whose calls are recorded in a log, and the network stream is a
    script of read results. *)

From Stdlib Require Import ZArith NArith Ascii String List Bool Lia.
From stdpp Require Import base option list strings gmap.

Import ListNotations.
Local Open Scope string_scope.
Local Open Scope list_scope.

Set Default Proof Using "Type".

(* ===================================================================== *)
(** ** Go strings and package [strings] *)
(* ===================================================================== *)

Module Strings.

(** [strings.HasPrefix(s, prefix)]:
    [len(s) >= len(prefix) && s[:len(prefix)] == prefix]. *)
Definition HasPrefix (s prefix : string) : bool := String.prefix prefix s.

(** [strings.HasSuffix(s, suffix)]:
    [len(s) >= len(suffix) && s[len(s)-len(suffix):] == suffix]. *)
Definition HasSuffix (s suffix : string) : bool :=
  (String.length suffix <=? String.length s)%nat &&
  String.eqb
    (String.substring (String.length s - String.length suffix)
                      (String.length suffix) s)
    suffix.


(** [strings.ToLower] on ASCII text. *)
Definition lower (c : ascii) : ascii :=
  let n := N_of_ascii c in
  if (65 <=? n)%N && (n <=? 90)%N then ascii_of_N (n + 32) else c.

Fixpoint ToLower (s : string) : string :=
  match s with
  | EmptyString => EmptyString
  | String c s' => String (lower c) (ToLower s')
  end.

(** [strings.EqualFold] on ASCII text: equality up to letter case. *)
Definition EqualFold (s t : string) : bool := String.eqb (ToLower s) (ToLower t).

End Strings.

(* ===================================================================== *)
(** ** Package [path]: Clean, Join, Dir *)
(* ===================================================================== *)

Module Path.

Definition slash : ascii := "/"%char.
Definition dot : ascii := "."%char.

(** [r == n || path[r] == '/'] on the not yet consumed input. *)
Definition end_or_slash (s : list ascii) : bool :=
  match s with
  | [] => true
  | c :: _ => Ascii.eqb c slash
  end.

(** The inner loop of the [..] case of [Clean].  The output buffer is kept
    reversed: [ro] holds [out.w] bytes, [last] is [out.index(out.w)].

    [for out.w > dotdot && out.index(out.w) != '/' { out.w-- }] *)
Fixpoint backtrack (dotdot : nat) (last : ascii) (ro : list ascii) : list ascii :=
  match ro with
  | [] => []
  | c :: ro' =>
      if (dotdot <? length ro)%nat && negb (Ascii.eqb last slash)
      then backtrack dotdot c ro'
      else ro
  end.

(** The bytes of one path element: up to the next ['/'] or the end. *)
Fixpoint span_elem (s : list ascii) : list ascii * list ascii :=
  match s with
  | [] => ([], [])
  | c :: s' =>
      if Ascii.eqb c slash then ([], s)
      else let '(e, rest) := span_elem s' in (c :: e, rest)
  end.

(** The main loop of [Clean], [for r < n { switch ... }].  [s] is
    [path[r:]], [ro] the reversed output buffer, [fuel] bounds the number
    of iterations (each one consumes at least one byte of [s]). *)
Fixpoint clean_loop (fuel : nat) (rooted : bool) (s ro : list ascii) (dotdot : nat)
  : list ascii :=
  match fuel with
  | O => ro
  | S fuel' =>
      match s with
      | [] => ro
      | c :: s1 =>
          if Ascii.eqb c slash then
            (* empty path element *)
            clean_loop fuel' rooted s1 ro dotdot
          else if Ascii.eqb c dot && end_or_slash s1 then
            (* . element *)
            clean_loop fuel' rooted s1 ro dotdot
          else if Ascii.eqb c dot
                  && match s1 with
                     | c1 :: s2 => Ascii.eqb c1 dot && end_or_slash s2
                     | [] => false
                     end then
            (* .. element: remove to last / *)
            let s2 := tl s1 in
            if (dotdot <? length ro)%nat then
              (* can backtrack *)
              match ro with
              | last :: ro' => clean_loop fuel' rooted s2 (backtrack dotdot last ro') dotdot
              | [] => clean_loop fuel' rooted s2 ro dotdot
              end
            else if negb rooted then
              (* cannot backtrack, but not rooted, so append .. element *)
              let ro1 := if (0 <? length ro)%nat then slash :: ro else ro in
              let ro2 := dot :: dot :: ro1 in
              clean_loop fuel' rooted s2 ro2 (length ro2)
            else
              clean_loop fuel' rooted s2 ro dotdot
          else
            (* real path element; add slash if needed, then copy it *)
            let ro1 :=
              if (rooted && negb (length ro =? 1)%nat)
                 || (negb rooted && negb (length ro =? 0)%nat)
              then slash :: ro else ro in
            let '(e, rest) := span_elem s in
            clean_loop fuel' rooted rest (rev_append e ro1) dotdot
      end
  end.

(** [path.Clean]. *)
Definition Clean (path : string) : string :=
  match list_ascii_of_string path with
  | [] => "."
  | (c :: s1) as s =>
      let rooted := Ascii.eqb c slash in
      let ro :=
        if rooted then clean_loop (length s) rooted s1 [slash] 1
        else clean_loop (length s) rooted s [] 0 in
      match ro with
      | [] => "."
      | _ => string_of_list_ascii (rev ro)
      end
  end.

(** The buffer built by [path.Join]: empty elements are ignored until the
    first non-empty one, the others are separated by ['/']. *)
Fixpoint join_buf (buf : string) (elem : list string) : string :=
  match elem with
  | [] => buf
  | e :: elem' =>
      if (0 <? String.length buf)%nat || negb (String.eqb e "") then
        let buf1 := if (0 <? String.length buf)%nat then buf +:+ "/" else buf in
        join_buf (buf1 +:+ e) elem'
      else join_buf buf elem'
  end.

(** [path.Join(elem...)]. *)
Definition Join (elem : list string) : string :=
  let size := fold_left (fun n e => (n + String.length e)%nat) elem 0%nat in
  if (size =? 0)%nat then "" else Clean (join_buf "" elem).

(** [path[:i+1]] for [i] the last index of ['/'] in [path] ([-1] when
    there is none): the [dir] half of [path.Split]. *)
Fixpoint split_dir (s : list ascii) : list ascii :=
  match s with
  | [] => []
  | c :: s' =>
      if existsb (Ascii.eqb slash) s then c :: split_dir s' else []
  end.

(** [path.Dir]. *)
Definition Dir (path : string) : string :=
  Clean (string_of_list_ascii (split_dir (list_ascii_of_string path))).

End Path.

(* ===================================================================== *)
(** ** Errors *)
(* ===================================================================== *)

(** The [syscall.Errno] values the model distinguishes. *)
Inductive errno := ENOENT | EEXIST | ENOTDIR | EISDIR | EACCES | EIO.

(** Go's [error] values met by [Fetch].  Errors made by the standard
    library are [io_EOF], [io_ErrShortWrite], [io_errInvalidWrite], [EOS]
    (an [*os.PathError] around an [errno]) and [ELib] (any other library
    error, by its message).  Every [fmt.Errorf] of fetch.go has a constructor
    of its own, carrying the values its format string prints. *)
Inductive error :=
| io_EOF
| io_ErrShortWrite
| io_errInvalidWrite
| EOS (e : errno)
| ELib (msg : string)
(* Fetch *)
| ErrExtension                                  (* "file extension not supported, only .tar.gz supported" *)
| ErrDstNotExist                                (* "dst does not exist" *)
| ErrDstNotDir                                  (* "dst is not a directory" *)
| ErrGoExists                                   (* `directory "go" already exists` *)
| ErrDownloading (err : error)                  (* "downloading file: %w" *)
| ErrStatus (code : Z) (status : string)        (* "downloading file: status %d: %s" *)
| ErrGzipReader (err : error)                   (* "gzip reader: %s" *)
| ErrNextHeader (err : error)                   (* "reading next header from tar file: %s" *)
| ErrChecksum (got expected : string)           (* "checksum mismatch, got %x, expected %s" *)
(* dstName *)
| ErrBadPath (name r dst : string)              (* "bad path %q in archive, resulting in path %q outside dst %q" *)
(* store *)
| ErrExtracting (err : error)                   (* "extracting: %v" *)
| ErrExtractedBytes (n size : Z)                (* "extracting %d bytes, expected %d" *)
| ErrChmod (err : error)                        (* "chmod: %s" *)
| ErrClose (err : error)                        (* "close: %s" *)
| ErrTypeflag (flag : ascii).                   (* "unsupported tar header typeflag %v" *)

(** [os.IsNotExist]. *)
Definition os_IsNotExist (err : error) : bool :=
  match err with
  | EOS ENOENT => true
  | _ => false
  end.

(** A Go result [(T, error)]. *)
Inductive result (T : Type) :=
| Ok (v : T)
| Err (e : error).
Arguments Ok {T} v.
Arguments Err {T} e.

(* ===================================================================== *)
(** ** Package [io]: Reader, Writer, LimitedReader, Copy *)
(* ===================================================================== *)

Abbreviation byte := Byte.byte.

(** What one [Read(p)] call returns: [n] is [length rd_bytes], [rd_bytes]
    is [p[:n]] after the call. *)
Record ReadResult := mkRead { rd_bytes : list byte; rd_err : option error }.

(** [io.Reader] over a state [R]: [Read(p)] gets [len(p)]. *)
Definition Reader (R : Type) := nat -> R -> ReadResult * R.

(** [io.Writer] over a state [W]: [Write(p)] returns [(n, err)]. *)
Definition Writer (W : Type) := list byte -> W -> (Z * option error) * W.

Module io.

(** A reader that replays a script of read results.  A result that does
    not fit in [p] is delivered in pieces; the exhausted script reads
    [0, io.EOF]. *)
Definition script_Read : Reader (list ReadResult) := fun len s =>
  match s with
  | [] => (mkRead [] (Some io_EOF), [])
  | r :: s' =>
      if (length (rd_bytes r) <=? len)%nat then (r, s')
      else (mkRead (take len (rd_bytes r)) None,
            mkRead (drop len (rd_bytes r)) (rd_err r) :: s')
  end.

(** A caller issuing the reads [lens] ([len(p)] of each) one after the
    other: the results it sees and the reader afterwards. *)
Fixpoint reads {R : Type} (Read : Reader R) (lens : list nat) (r : R)
  : list ReadResult * R :=
  match lens with
  | [] => ([], r)
  | len :: lens' =>
      let '(res, r1) := Read len r in
      let '(ress, r2) := reads Read lens' r1 in
      (res :: ress, r2)
  end.

Section LimitedReader.
Context {R : Type} (Read : Reader R).

(** [io.LimitedReader]: the state is the state of [l.R] and [l.N].
<<
  func (l *LimitedReader) Read(p []byte) (n int, err error) {
    if l.N <= 0 { return 0, EOF }
    if int64(len(p)) > l.N { p = p[0:l.N] }
    n, err = l.R.Read(p)
    l.N -= int64(n)
    return
  }
>> *)
Definition LimitedReader_Read : Reader (R * Z) := fun len l =>
  let '(r, N) := l in
  if (N <=? 0)%Z then (mkRead [] (Some io_EOF), l)
  else
    let len' := if (N <? Z.of_nat len)%Z then Z.to_nat N else len in
    let '(res, r') := Read len' r in
    (res, (r', (N - Z.of_nat (length (rd_bytes res)))%Z)).
End LimitedReader.

Section Copy.
Context {R W : Type} (Read : Reader R) (Write : Writer W).

(** One round of the loop of [io.copyBuffer], which [io.Copy] runs when
    neither side has a shortcut: the bytes written so far and the states
    after the round, and [Some err] when the round leaves the loop.
<<
  for {
    nr, er := src.Read(buf)
    if nr > 0 {
      nw, ew := dst.Write(buf[0:nr])
      if nw < 0 || nr < nw { nw = 0; if ew == nil { ew = errInvalidWrite } }
      written += int64(nw)
      if ew != nil { err = ew; break }
      if nr != nw { err = ErrShortWrite; break }
    }
    if er != nil { if er != EOF { err = er }; break }
  }
  return written, err
>> *)
Definition copy_round (size : nat) (written : Z) (r : R) (w : W)
  : (Z * R * W) * option (option error) :=
  let '(res, r1) := Read size r in
  let nr := Z.of_nat (length (rd_bytes res)) in
  let after (written1 : Z) (w1 : W) :=
    match rd_err res with
    | Some io_EOF => ((written1, r1, w1), Some None)
    | Some er => ((written1, r1, w1), Some (Some er))
    | None => ((written1, r1, w1), None)
    end in
  if (0 <? nr)%Z then
    let '((nw0, ew0), w1) := Write (rd_bytes res) w in
    let '(nw, ew) :=
      if (nw0 <? 0)%Z || (nr <? nw0)%Z
      then (0%Z, match ew0 with None => Some io_errInvalidWrite | _ => ew0 end)
      else (nw0, ew0) in
    let written1 := (written + nw)%Z in
    match ew with
    | Some e => ((written1, r1, w1), Some (Some e))
    | None =>
        if negb (nr =? nw)%Z then ((written1, r1, w1), Some (Some io_ErrShortWrite))
        else after written1 w1
    end
  else after written w.

(** The loop.  [None]: it did not end within [fuel] rounds. *)
Fixpoint copyBuffer (fuel : nat) (size : nat) (written : Z) (r : R) (w : W)
  : option ((Z * option error) * R * W) :=
  match fuel with
  | O => None
  | S fuel' =>
      let '((written1, r1, w1), stop) := copy_round size written r w in
      match stop with
      | Some err => Some ((written1, err), r1, w1)
      | None => copyBuffer fuel' size written1 r1 w1
      end
  end.
End Copy.

(** The buffer [io.copyBuffer] allocates for a [*LimitedReader] source:
<<
    size := 32 * 1024
    if src is a LimitedReader l && int64(size) > l.N {
      if l.N < 1 { size = 1 } else { size = int(l.N) }
    }
>> *)
Definition copy_size (N : Z) : nat :=
  if (N <? 32 * 1024)%Z then (if (N <? 1)%Z then 1%nat else Z.to_nat N) else (32 * 1024)%nat.

End io.

(* ===================================================================== *)
(** ** Package [hash] and the digesting reader *)
(* ===================================================================== *)

(** [hash.Hash], as far as [Fetch] uses it: [Write] never fails, [Sum(nil)]
    returns the digest of what was written. *)
Record Hash := mkHash {
  hash_state : Type;
  hash_Write : hash_state -> list byte -> hash_state;
  hash_Sum : hash_state -> list byte;
}.

Section hashReader.
Context {R : Type} (r_Read : Reader R) (H : Hash).

(** [type hashReader struct { r io.Reader; h hash.Hash }] *)
Record hashReader := mkHashReader { hr_r : R; hr_h : hash_state H }.

(**
<<
  func (hr *hashReader) Read(buf []byte) (n int, err error) {
    n, err = hr.r.Read(buf)
    if n > 0 {
      hr.h.Write(buf[:n])
    }
    return
  }
>> *)
Definition hashReader_Read : Reader hashReader := fun len hr =>
  let '(res, r') := r_Read len (hr_r hr) in
  let n := length (rd_bytes res) in
  let h' := if (0 <? n)%nat
            then hash_Write H (hr_h hr) (take n (rd_bytes res))
            else hr_h hr in
  (res, mkHashReader r' h').
End hashReader.
Arguments mkHashReader {R H} _ _.
Arguments hr_r {R H} _.
Arguments hr_h {R H} _.

(* ===================================================================== *)
(** ** Package [fmt]: the [%x] verb *)
(* ===================================================================== *)

Module fmt.

Definition hex_digit (n : N) : ascii :=
  match n with
  | 0 => "0" | 1 => "1" | 2 => "2" | 3 => "3" | 4 => "4" | 5 => "5" | 6 => "6" | 7 => "7"
  | 8 => "8" | 9 => "9" | 10 => "a" | 11 => "b" | 12 => "c" | 13 => "d" | 14 => "e"
  | _ => "f"
  end%N%char.

(** [fmt.Sprintf("%x", b)] for a byte slice: two lower-case hexadecimal
    digits per byte. *)
Fixpoint hex_bytes (b : list byte) : string :=
  match b with
  | [] => ""
  | x :: b' =>
      let n := Byte.to_N x in
      String (hex_digit (n / 16)) (String (hex_digit (n mod 16)) (hex_bytes b'))
  end.

(** [%x] applied to a string: the same, over the bytes of the string. *)
Definition hex_string (s : string) : string :=
  hex_bytes (map byte_of_ascii (list_ascii_of_string s)).

End fmt.

(* ===================================================================== *)
(** ** Data of the package and of [archive/tar] *)
(* ===================================================================== *)

(** Modelled from the spec: the [File] struct is declared in a file of the
    package that is not among the sources at hand (the release list);
    [Fetch] reads its fields [Filename] and [Sha256], the spec names the
    others ("File descriptor": filename, expected digest, os, arch, kind). *)
Record File := mkFile {
  Filename : string;
  Os : string;
  Arch : string;
  Sha256 : string;
  Kind : string;
}.

(** The fields of [tar.Header] that [Fetch] and [store] read. *)
Record Header := mkHeader {
  Name : string;
  Typeflag : ascii;
  Size : Z;       (* int64 *)
  Mode : Z;       (* int64 *)
  Linkname : string;
}.

Module tar.
Definition TypeReg : ascii := "0".
Definition TypeLink : ascii := "1".
Definition TypeSymlink : ascii := "2".
Definition TypeDir : ascii := "5".
Definition TypeXGlobalHeader : ascii := "g".
Definition TypeGNUSparse : ascii := "S".
End tar.

(** [os.ModePerm] and the literal [0777]. *)
Definition os_ModePerm : Z := 511.

(** [os.FileMode(m)] for [m : int64]: conversion to [uint32]. *)
Definition os_FileMode (m : Z) : Z := m mod 2 ^ 32.

(** [os.FileInfo], as far as [Fetch] looks at it. *)
Record FileInfo := mkFileInfo { IsDir : bool }.

(* ===================================================================== *)
(** ** The environment: operating system, network stream *)
(* ===================================================================== *)

(** The calls of package [os] made by [Fetch] and [store], over a state [S]
    of the file system and handles [F] of open files. *)
Class OS (S F : Type) := {
  os_Stat : string -> S -> result FileInfo;
  os_MkdirAll : string -> Z -> S -> option error * S;
  os_Mkdir : string -> Z -> S -> option error * S;
  os_Create : string -> S -> result F * S;
  os_Link : string -> string -> S -> option error * S;
  os_Symlink : string -> string -> S -> option error * S;
  os_RemoveAll : string -> S -> option error * S;
  file_Write : F -> list byte -> S -> (Z * option error) * S;
  file_Chmod : F -> Z -> S -> option error * S;
  file_Close : F -> S -> option error * S;
}.

(** The calls that leave the process, in the order they are made. *)
Inductive event :=
| EvStat (name : string)
| EvHttpGet (url : string)
| EvBodyClose
| EvGzipNewReader
| EvGzipClose
| EvTarNext
| EvMkdirAll (path : string) (perm : Z)
| EvMkdir (name : string) (perm : Z)
| EvCreate (name : string)
| EvWrite (name : string) (b : list byte)
| EvChmod (name : string) (mode : Z)
| EvClose (name : string)
| EvLink (oldname newname : string)
| EvSymlink (oldname newname : string)
| EvRemoveAll (path : string).

(** The calls that can change the file system. *)
Definition is_mutation (e : event) : bool :=
  match e with
  | EvStat _ | EvHttpGet _ | EvBodyClose | EvGzipNewReader | EvGzipClose | EvTarNext => false
  | _ => true
  end.

(** One [Read] of the tar reader on the data of the current entry: what it
    returns, and the reads ([len(buf)] of each) it makes on the gzip
    reader's source to produce it. *)
Record tread := mkTread {
  t_raw : list nat;
  t_bytes : list byte;
  t_err : option error;
}.

(** One entry of the archive: the header [Next] returns, the reads on the
    source [Next] makes to get there, and the reads of its data. *)
Record item := mkItem {
  it_raw : list nat;
  it_hdr : Header;
  it_data : list tread;
}.

(** What a response body is to [Fetch]: the results of the successive reads
    of [resp.Body], and what [compress/gzip] and [archive/tar] make of the
    bytes (their decoding is not modelled: any combination is allowed). *)
Record Stream := mkStream {
  raw : list ReadResult;
  gz_raw : list nat;              (* reads made by gzip.NewReader *)
  gz_err : option error;          (* its result *)
  items : list item;              (* the entries before the end *)
  end_raw : list nat;             (* reads made by the last Next *)
  end_err : error;                (* its result: io.EOF, or what is wrong *)
}.

(** [*http.Response]. *)
Record Response := mkResponse {
  StatusCode : Z;
  Status : string;
  Body : Stream;
}.

(** The state [Fetch] acts on: the file system and the log of calls. *)
Record World (S : Type) := mkWorld { fs : S; log : list event }.
Arguments mkWorld {S} _ _.
Arguments fs {S} _.
Arguments log {S} _.

Definition emit {S} (e : event) (w : World S) : World S :=
  mkWorld (fs w) (log w ++ [e]).

(** A call of the operating system: logged, then run on the file system. *)
Definition call {S A} (e : event) (op : S -> A * S) (w : World S) : A * World S :=
  let '(a, s') := op (fs w) in (a, mkWorld s' (log w ++ [e])).

(* ===================================================================== *)
(** ** fetch.go *)
(* ===================================================================== *)

Section Fetch.
Context {S F : Type} `{!OS S F}.
(** [http.Get], and the digest [crypto/sha256] computes of the bytes
    written to it. *)
Variable http_Get : string -> result Response.
Variable sha256_Sum : list byte -> list byte.

(** [sha256.New()]: the state is what was written so far. *)
Definition sha256_New : Hash :=
  mkHash (list byte) (fun st p => st ++ p) sha256_Sum.

(** [&hashReader{resp.Body, sha256.New()}] *)
Definition hreader : Type := @hashReader (list ReadResult) sha256_New.

Definition hr_Read : Reader hreader := hashReader_Read io.script_Read sha256_New.

(** The reads a library makes on [hr]; it keeps the results to itself. *)
Definition hr_consume (lens : list nat) (hr : hreader) : hreader :=
  (io.reads hr_Read lens hr).2.

(** [*tar.Reader] over [*gzip.Reader] over [hr]: the reader [hr] it pulls
    from, the unread data of the current entry, what is still to come. *)
Record tarReader := mkTar {
  tr_hr : hreader;
  tr_cur : list tread;
  tr_items : list item;
  tr_end_raw : list nat;
  tr_end_err : error;
}.

(** [gzip.NewReader(hr)] reads the gzip header. *)
Definition gzip_NewReader (body : Stream) (hr : hreader) : option error * hreader :=
  (gz_err body, hr_consume (gz_raw body) hr).

(** [tar.NewReader(gzr)] *)
Definition tar_NewReader (body : Stream) (hr : hreader) : tarReader :=
  mkTar hr [] (items body) (end_raw body) (end_err body).

(** [tr.Next()]: skips what is left of the current entry, then moves to
    the next header, or reports the end. *)
Definition tar_Next (tr : tarReader) : result Header * tarReader :=
  let hr1 := hr_consume (concat (map t_raw (tr_cur tr))) (tr_hr tr) in
  match tr_items tr with
  | [] =>
      (Err (tr_end_err tr),
       mkTar (hr_consume (tr_end_raw tr) hr1) [] [] [] (tr_end_err tr))
  | it :: rest =>
      (Ok (it_hdr it),
       mkTar (hr_consume (it_raw it) hr1) (it_data it) rest
             (tr_end_raw tr) (tr_end_err tr))
  end.

(** [tr.Read(p)]: the next piece of the data of the current entry. *)
Definition tar_Read : Reader tarReader := fun len tr =>
  match tr_cur tr with
  | [] => (mkRead [] (Some io_EOF), tr)
  | t :: rest =>
      let hr1 := hr_consume (t_raw t) (tr_hr tr) in
      if (length (t_bytes t) <=? len)%nat then
        (mkRead (t_bytes t) (t_err t),
         mkTar hr1 rest (tr_items tr) (tr_end_raw tr) (tr_end_err tr))
      else
        (mkRead (take len (t_bytes t)) None,
         mkTar hr1 (mkTread [] (drop len (t_bytes t)) (t_err t) :: rest)
               (tr_items tr) (tr_end_raw tr) (tr_end_err tr))
  end.

(** [f.Write], for the file [f] created as [name]. *)
Definition File_Write (f : F) (name : string) : Writer (World S) := fun b w =>
  call (EvWrite name b) (file_Write f b) w.

(** Rounds of [io.copyBuffer] that are enough to drain the current entry:
    every round takes a scripted read, or at least one byte of one. *)
Definition copy_fuel (tr : tarReader) : nat :=
  Datatypes.S (fold_right (fun t n => (1 + length (t_bytes t) + n)%nat) 0%nat (tr_cur tr)).

(** [io.Copy(f, lr)] for [lr := io.LimitReader(tr, N)].  The [None] branch
    is never taken (lemma [copyBuffer_tar_enough]). *)
Definition io_Copy (f : F) (name : string) (lr : tarReader * Z) (w : World S)
  : (Z * option error) * tarReader * World S :=
  match io.copyBuffer (io.LimitedReader_Read tar_Read) (File_Write f name)
                      (copy_fuel lr.1) (io.copy_size lr.2) 0 lr w with
  | Some (res, lr', w') => (res, lr'.1, w')
  | None => ((0%Z, None), lr.1, w)
  end.

(**
<<
  func dstName(dst, name string) (string, error) {
    r := path.Clean(path.Join(dst, name))
    if !strings.HasPrefix(r, dst) {
      return "", fmt.Errorf("bad path %q in archive, resulting in path %q outside dst %q", name, r, dst)
    }
    return r, nil
  }
>> *)
Definition dstName (dst name : string) : result string :=
  let r := Path.Clean (Path.Join [dst; name]) in
  if negb (Strings.HasPrefix r dst) then Err (ErrBadPath name r dst)
  else Ok r.

(** [func store(dst string, tr *tar.Reader, h *tar.Header, name string) error] *)
Definition store (dst : string) (tr : tarReader) (h : Header) (name : string)
           (w : World S) : option error * tarReader * World S :=
  (* os.MkdirAll(path.Dir(name), 0777) *)
  let '(_, w) := call (EvMkdirAll (Path.Dir name) 511)
                      (os_MkdirAll (Path.Dir name) 511) w in
  if Ascii.eqb (Typeflag h) tar.TypeReg then
    (* f, err := os.Create(name) *)
    let '(rf, w) := call (EvCreate name) (os_Create name) w in
    match rf with
    | Err err => (Some err, tr, w)
    | Ok f =>
        (* defer func() { if f != nil { f.Close() } }() *)
        let deferred (w : World S) : World S :=
          (call (EvClose name) (file_Close f) w).2 in
        (* lr := io.LimitReader(tr, h.Size); n, err := io.Copy(f, lr) *)
        let '((n, err), tr, w) := io_Copy f name (tr, Size h) w in
        match err with
        | Some err => (Some (ErrExtracting err), tr, deferred w)
        | None =>
            if negb (n =? Size h)%Z then
              (Some (ErrExtractedBytes n (Size h)), tr, deferred w)
            else
              (* err = f.Chmod(os.FileMode(h.Mode) & os.ModePerm) *)
              let mode := Z.land (os_FileMode (Mode h)) os_ModePerm in
              let '(err, w) := call (EvChmod name mode) (file_Chmod f mode) w in
              match err with
              | Some err => (Some (ErrChmod err), tr, deferred w)
              | None =>
                  (* err = f.Close() *)
                  let '(err, w) := call (EvClose name) (file_Close f) w in
                  match err with
                  | Some err => (Some (ErrClose err), tr, deferred w)
                  | None => (* f = nil *) (None, tr, w)
                  end
              end
        end
    end
  else if Ascii.eqb (Typeflag h) tar.TypeLink then
    match dstName dst (Linkname h) with
    | Err err => (Some err, tr, w)
    | Ok linkname =>
        let '(err, w) := call (EvLink linkname name) (os_Link linkname name) w in
        (err, tr, w)
    end
  else if Ascii.eqb (Typeflag h) tar.TypeSymlink then
    match dstName dst (Linkname h) with
    | Err err => (Some err, tr, w)
    | Ok linkname =>
        let '(err, w) := call (EvSymlink linkname name) (os_Symlink linkname name) w in
        (err, tr, w)
    end
  else if Ascii.eqb (Typeflag h) tar.TypeDir then
    let '(err, w) := call (EvMkdir name 511) (os_Mkdir name 511) w in
    (err, tr, w)
  else if Ascii.eqb (Typeflag h) tar.TypeXGlobalHeader
          || Ascii.eqb (Typeflag h) tar.TypeGNUSparse then
    (None, tr, w)
  else (Some (ErrTypeflag (Typeflag h)), tr, w).

(** [err == io.EOF] *)
Definition is_EOF (err : error) : bool :=
  match err with io_EOF => true | _ => false end.

(** The [for] loop of [Fetch] over the entries.  [None]: not done within
    [fuel] rounds.
<<
  for {
    h, err := tr.Next()
    if err == io.EOF { break }
    if err != nil { return fmt.Errorf("reading next header from tar file: %s", err) }
    name, err := dstName(dst, h.Name)
    if err != nil { return err }
    err = store(dst, tr, h, name)
    if err != nil { return err }
  }
>> *)
Fixpoint extract (fuel : nat) (dst : string) (tr : tarReader) (w : World S)
  : option (option error * tarReader * World S) :=
  match fuel with
  | O => None
  | Datatypes.S fuel' =>
      let '(rh, tr) := tar_Next tr in
      let w := emit EvTarNext w in
      match rh with
      | Err err =>
          if is_EOF err then Some (None, tr, w)
          else Some (Some (ErrNextHeader err), tr, w)
      | Ok h =>
          match dstName dst (Name h) with
          | Err err => Some (Some err, tr, w)
          | Ok name =>
              let '(err, tr, w) := store dst tr h name w in
              match err with
              | Some err => Some (Some err, tr, w)
              | None => extract fuel' dst tr w
              end
          end
      end
  end.

(** The rest of [Fetch] once the rollback is deferred: the loop, then the
    comparison of the digest.  Returns [success] and the error. *)
Definition Fetch_extract (file : File) (dst : string) (tr : tarReader) (w : World S)
  : bool * option error * World S :=
  match extract (Datatypes.S (length (tr_items tr))) dst tr w with
  | None => (false, None, w)
  | Some (Some err, _, w) => (false, Some err, w)
  | Some (None, tr, w) =>
      (* sum := fmt.Sprintf("%x", hr.h.Sum(nil)) *)
      let sum := fmt.hex_bytes (hash_Sum sha256_New (hr_h (tr_hr tr))) in
      if negb (String.eqb sum (Sha256 file)) then
        (false, Some (ErrChecksum (fmt.hex_string sum) (Sha256 file)), w)
      else
        (* success = true *)
        (true, None, w)
  end.

(** [Fetch] from [hr := &hashReader{...}] on; [defer gzr.Close()] and the
    deferred rollback run on the way out, the latest first. *)
Definition Fetch_body (file : File) (dst : string) (body : Stream) (w : World S)
  : option error * World S :=
  let hr : hreader := @mkHashReader _ sha256_New (raw body) ([] : list byte) in
  (* gzr, err := gzip.NewReader(hr) *)
  let '(err, hr) := gzip_NewReader body hr in
  let w := emit EvGzipNewReader w in
  match err with
  | Some err => (Some (ErrGzipReader err), w)
  | None =>
      (* success := false; defer func() { if !success { os.RemoveAll(path.Join(dst, "go")) } }() *)
      let tr := tar_NewReader body hr in
      let '(success, err, w) := Fetch_extract file dst tr w in
      let w :=
        if negb success then
          (call (EvRemoveAll (Path.Join [dst; "go"]))
                (os_RemoveAll (Path.Join [dst; "go"])) w).2
        else w in
      (* defer gzr.Close() *)
      (err, emit EvGzipClose w)
  end.

(** [func Fetch(file File, dst string) error] *)
Definition Fetch (file : File) (dst : string) (w : World S) : option error * World S :=
  if negb (Strings.HasSuffix (Filename file) ".tar.gz") then (Some ErrExtension, w)
  else
    (* fi, err := os.Stat(dst) *)
    let r := os_Stat dst (fs w) in
    let w := emit (EvStat dst) w in
    match r with
    | Err err =>
        if os_IsNotExist err then (Some ErrDstNotExist, w) else (Some err, w)
    | Ok fi =>
        if negb (IsDir fi) then (Some ErrDstNotDir, w)
        else
          (* fi, err = os.Stat(path.Join(dst, "go")) *)
          let r := os_Stat (Path.Join [dst; "go"]) (fs w) in
          let w := emit (EvStat (Path.Join [dst; "go"])) w in
          match r with
          | Ok _ => (Some ErrGoExists, w)
          | Err _ =>
              (* we assume it's a not-exists error. *)
              let dst := Path.Clean dst +:+ "/" in
              let url := "https://golang.org/dl/" +:+ Filename file in
              let resp := http_Get url in
              let w := emit (EvHttpGet url) w in
              match resp with
              | Err err => (Some (ErrDownloading err), w)
              | Ok resp =>
                  (* defer resp.Body.Close() *)
                  let '(err, w) :=
                    if negb (StatusCode resp =? 200)%Z then
                      (Some (ErrStatus (StatusCode resp) (Status resp)), w)
                    else Fetch_body file dst (Body resp) w in
                  (err, emit EvBodyClose w)
              end
          end
    end.

End Fetch.
Arguments tr_hr {sha256_Sum} _.
Arguments tr_cur {sha256_Sum} _.
Arguments tr_items {sha256_Sum} _.
Arguments tr_end_raw {sha256_Sum} _.
Arguments tr_end_err {sha256_Sum} _.

(* ===================================================================== *)
(** ** A file system in memory, to run [Fetch] on *)
(* ===================================================================== *)

(** An instance of [OS]: a map from cleaned paths to nodes.  Directories
    carry permission bits, of which the owner's write and search bits are
    enforced on the parent directory of the path an operation names.  Not
    modelled: symbolic links are not followed, a hard link is a copy, only
    the immediate parent is checked. *)
Module MemFS.

Inductive node :=
| Dir (perm : Z)
| Reg (perm : Z) (data : list byte)
| Symlink (target : string).

Record t := mk { nodes : gmap string node; umask : Z }.

Definition with_nodes (s : t) (m : gmap string node) : t := mk m (umask s).

Definition S_IXUSR : Z := 64.   (* 0100 *)
Definition S_IWUSR : Z := 128.  (* 0200 *)

Definition has (perm bit : Z) : bool := negb (Z.land perm bit =? 0)%Z.

(** The node at [p], if the parent directory of [p] can be searched. *)
Definition resolve (p : string) (s : t) : result (option node) :=
  let p := Path.Clean p in
  let d := Path.Dir p in
  if String.eqb p d then Ok (nodes s !! p)
  else
    match nodes s !! d with
    | None => Err (EOS ENOENT)
    | Some (Dir perm) => if has perm S_IXUSR then Ok (nodes s !! p) else Err (EOS EACCES)
    | Some _ => Err (EOS ENOTDIR)
    end.

(** Whether an entry may be added to or removed from the parent of [p]. *)
Definition parent_writable (p : string) (s : t) : bool :=
  let p := Path.Clean p in
  match nodes s !! Path.Dir p with
  | Some (Dir perm) => has perm S_IWUSR && has perm S_IXUSR
  | _ => false
  end.

Definition Stat (p : string) (s : t) : result FileInfo :=
  match resolve p s with
  | Err e => Err e
  | Ok None => Err (EOS ENOENT)
  | Ok (Some (Dir _)) => Ok (mkFileInfo true)
  | Ok (Some _) => Ok (mkFileInfo false)
  end.

(** Adds node [n] at [p], which must be free, in a writable parent. *)
Definition add (p : string) (n : node) (s : t) : option error * t :=
  match resolve p s with
  | Err e => (Some e, s)
  | Ok (Some _) => (Some (EOS EEXIST), s)
  | Ok None =>
      if parent_writable p s
      then (None, with_nodes s (<[Path.Clean p := n]> (nodes s)))
      else (Some (EOS EACCES), s)
  end.

Definition Mkdir (p : string) (perm : Z) (s : t) : option error * t :=
  add p (Dir (Z.ldiff perm (umask s))) s.

(** [os.MkdirAll]: nothing to do for a directory; otherwise the parent
    first (when the path has one), then [Mkdir]. *)
Fixpoint MkdirAll_rec (fuel : nat) (p : string) (perm : Z) (s : t) : option error * t :=
  match Stat p s with
  | Ok fi => if IsDir fi then (None, s) else (Some (EOS ENOTDIR), s)
  | Err _ =>
      let parent := Path.Dir p in
      let '(err, s1) :=
        match fuel with
        | O => (None, s)
        | Datatypes.S fuel' =>
            if String.eqb parent "." || String.eqb parent "/" || String.eqb parent p
            then (None, s)
            else MkdirAll_rec fuel' parent perm s
        end in
      match err with
      | Some e => (Some e, s1)
      | None => Mkdir p perm s1
      end
  end.

Definition MkdirAll (p : string) (perm : Z) (s : t) : option error * t :=
  MkdirAll_rec (String.length p) (Path.Clean p) perm s.

(** [os.Create]: a new empty file with mode 0666 before umask, or the old
    file truncated.  The handle is the cleaned path. *)
Definition Create (p : string) (s : t) : result string * t :=
  match resolve p s with
  | Err e => (Err e, s)
  | Ok (Some (Dir _)) => (Err (EOS EISDIR), s)
  | Ok (Some (Symlink _)) => (Err (EOS EIO), s)
  | Ok (Some (Reg perm _)) =>
      if has perm S_IWUSR
      then (Ok (Path.Clean p), with_nodes s (<[Path.Clean p := Reg perm []]> (nodes s)))
      else (Err (EOS EACCES), s)
  | Ok None =>
      if parent_writable p s
      then (Ok (Path.Clean p),
            with_nodes s (<[Path.Clean p := Reg (Z.ldiff 438 (umask s)) []]> (nodes s)))
      else (Err (EOS EACCES), s)
  end.

Definition Write (f : string) (b : list byte) (s : t) : (Z * option error) * t :=
  match nodes s !! f with
  | Some (Reg perm data) =>
      ((Z.of_nat (length b), None), with_nodes s (<[f := Reg perm (data ++ b)]> (nodes s)))
  | _ => ((0%Z, Some (EOS EIO)), s)
  end.

Definition Chmod (f : string) (mode : Z) (s : t) : option error * t :=
  match nodes s !! f with
  | Some (Reg _ data) => (None, with_nodes s (<[f := Reg mode data]> (nodes s)))
  | _ => (Some (EOS ENOENT), s)
  end.

Definition Close (f : string) (s : t) : option error * t := (None, s).

Definition Link (oldname newname : string) (s : t) : option error * t :=
  match resolve oldname s with
  | Err e => (Some e, s)
  | Ok None => (Some (EOS ENOENT), s)
  | Ok (Some (Dir _)) => (Some (EOS EACCES), s)
  | Ok (Some n) => add newname n s
  end.

Definition Symlink_ (oldname newname : string) (s : t) : option error * t :=
  add newname (Symlink oldname) s.

(** Whether key [k] is [p] or lies below it. *)
Definition below (p k : string) : bool :=
  String.eqb k p || Strings.HasPrefix k (p +:+ "/").

(** [os.RemoveAll]: removes [p] and everything below; no error when [p]
    does not exist. *)
Definition RemoveAll (p : string) (s : t) : option error * t :=
  let p := Path.Clean p in
  match resolve p s with
  | Err e => if os_IsNotExist e then (None, s) else (Some e, s)
  | Ok None => (None, s)
  | Ok (Some _) =>
      if parent_writable p s
      then (None, with_nodes s (filter (fun kv => below p kv.1 = false) (nodes s)))
      else (Some (EOS EACCES), s)
  end.

End MemFS.

#[export] Instance MemFS_OS : OS MemFS.t string := {
  os_Stat := MemFS.Stat;
  os_MkdirAll := MemFS.MkdirAll;
  os_Mkdir := MemFS.Mkdir;
  os_Create := MemFS.Create;
  os_Link := MemFS.Link;
  os_Symlink := MemFS.Symlink_;
  os_RemoveAll := MemFS.RemoveAll;
  file_Write := MemFS.Write;
  file_Chmod := MemFS.Chmod;
  file_Close := MemFS.Close;
}.

(* ===================================================================== *)
(** ** SHA-256 *)
(* ===================================================================== *)

(** The digest of [crypto/sha256], after FIPS 180-4, on 32-bit words kept
    in [Z].  [Fetch] is parametric in the digest; this one is used to run
    it. *)
Module SHA256.
Local Open Scope Z_scope.

Definition w32 (x : Z) : Z := x mod 2 ^ 32.
Definition add32 (x y : Z) : Z := w32 (x + y).
Definition rotr (n x : Z) : Z := Z.lor (Z.shiftr x n) (w32 (Z.shiftl x (32 - n))).
Definition Ch (x y z : Z) : Z := Z.lxor (Z.land x y) (Z.land (w32 (Z.lnot x)) z).
Definition Maj (x y z : Z) : Z :=
  Z.lxor (Z.lxor (Z.land x y) (Z.land x z)) (Z.land y z).
Definition Sigma0 (x : Z) : Z := Z.lxor (Z.lxor (rotr 2 x) (rotr 13 x)) (rotr 22 x).
Definition Sigma1 (x : Z) : Z := Z.lxor (Z.lxor (rotr 6 x) (rotr 11 x)) (rotr 25 x).
Definition sigma0 (x : Z) : Z := Z.lxor (Z.lxor (rotr 7 x) (rotr 18 x)) (Z.shiftr x 3).
Definition sigma1 (x : Z) : Z := Z.lxor (Z.lxor (rotr 17 x) (rotr 19 x)) (Z.shiftr x 10).

Definition K : list Z :=
  [1116352408; 1899447441; 3049323471; 3921009573; 961987163; 1508970993; 2453635748; 2870763221;
     3624381080; 310598401; 607225278; 1426881987; 1925078388; 2162078206; 2614888103; 3248222580;
     3835390401; 4022224774; 264347078; 604807628; 770255983; 1249150122; 1555081692; 1996064986;
     2554220882; 2821834349; 2952996808; 3210313671; 3336571891; 3584528711; 113926993; 338241895;
     666307205; 773529912; 1294757372; 1396182291; 1695183700; 1986661051; 2177026350; 2456956037;
     2730485921; 2820302411; 3259730800; 3345764771; 3516065817; 3600352804; 4094571909; 275423344;
     430227734; 506948616; 659060556; 883997877; 958139571; 1322822218; 1537002063; 1747873779;
     1955562222; 2024104815; 2227730452; 2361852424; 2428436474; 2756734187; 3204031479; 3329325298].

Definition H0 : list Z :=
  [1779033703; 3144134277; 1013904242; 2773480762; 1359893119; 2600822924; 528734635; 1541459225].

Definition byteZ (b : byte) : Z := Z.of_N (Byte.to_N b).
Definition Zbyte (x : Z) : byte :=
  match Byte.of_N (Z.to_N (x mod 256)) with
  | Some b => b
  | None => Byte.x00
  end.

(** [n] as [k] bytes, big-endian. *)
Fixpoint be_bytes (k : nat) (n : Z) : list byte :=
  match k with
  | O => []
  | Datatypes.S k' => be_bytes k' (n / 256) ++ [Zbyte n]
  end.

(** The message, the bit 1, zeros up to 56 modulo 64, the length in bits. *)
Definition pad (msg : list byte) : list byte :=
  let l := Z.of_nat (length msg) in
  let zeros := Z.to_nat ((55 - l) mod 64) in
  msg ++ [Byte.x80] ++ repeat Byte.x00 zeros ++ be_bytes 8 (8 * l).

(** Big-endian 32-bit words of a byte string. *)
Fixpoint words (fuel : nat) (b : list byte) : list Z :=
  match fuel, b with
  | Datatypes.S fuel', b0 :: b1 :: b2 :: b3 :: b' =>
      (((byteZ b0 * 256 + byteZ b1) * 256 + byteZ b2) * 256 + byteZ b3) :: words fuel' b'
  | _, _ => []
  end.

(** The message schedule, latest word first: [rw] holds W[t-1], W[t-2], ... *)
Fixpoint schedule (n : nat) (rw : list Z) : list Z :=
  match n with
  | O => rw
  | Datatypes.S n' =>
      let w := add32 (add32 (sigma1 (nth 1 rw 0)) (nth 6 rw 0))
                     (add32 (sigma0 (nth 14 rw 0)) (nth 15 rw 0)) in
      schedule n' (w :: rw)
  end.

Definition round (st : list Z) (kw : Z * Z) : list Z :=
  match st with
  | [a; b; c; d; e; f; g; h] =>
      let t1 := add32 (add32 (add32 h (Sigma1 e)) (add32 (Ch e f g) kw.1)) kw.2 in
      let t2 := add32 (Sigma0 a) (Maj a b c) in
      [add32 t1 t2; a; b; c; add32 d t1; e; f; g]
  | _ => st
  end.

Definition block (hs : list Z) (w16 : list Z) : list Z :=
  let w := rev (schedule 48 (rev w16)) in
  let st := fold_left round (combine K w) hs in
  map (fun p => add32 p.1 p.2) (combine hs st).

Fixpoint blocks (fuel : nat) (hs : list Z) (ws : list Z) : list Z :=
  match fuel, ws with
  | Datatypes.S fuel', _ :: _ => blocks fuel' (block hs (take 16 ws)) (drop 16 ws)
  | _, _ => hs
  end.

Definition Sum (msg : list byte) : list byte :=
  let p := pad msg in
  let ws := words (length p) p in
  concat (map (be_bytes 4) (blocks (length ws) H0 ws)).

End SHA256.

(** The bytes of a string literal. *)
Definition bytes_of (s : string) : list byte :=
  map byte_of_ascii (list_ascii_of_string s).


(* ===================================================================== *)
(** ** Concrete runs *)
(* ===================================================================== *)

(** Lower-case hexadecimal text to bytes. *)
Definition unhex_digit (c : ascii) : N :=
  let n := N_of_ascii c in
  if (n <? 58)%N then (n - 48)%N else (n - 87)%N.

Fixpoint unhex_list (s : list ascii) : list byte :=
  match s with
  | hi :: lo :: s' => SHA256.Zbyte (Z.of_N (16 * unhex_digit hi + unhex_digit lo)) :: unhex_list s'
  | _ => []
  end.

Definition unhex (s : string) : list byte := unhex_list (list_ascii_of_string s).

Module Run.

(** The directory [tmp] in the working directory, nothing in it. *)
Definition fs0 (perm_tmp umask : Z) : MemFS.t :=
  MemFS.mk (<["tmp" := MemFS.Dir perm_tmp]> (<["." := MemFS.Dir 493]> ∅)) umask.

Definition w0 : World MemFS.t := mkWorld (fs0 493 18) [].

(** [tmp] with a directory [go] in it already. *)
Definition w_go : World MemFS.t :=
  mkWorld (MemFS.with_nodes (fs0 493 18)
             (<["tmp/go" := MemFS.Dir 493]> (MemFS.nodes (fs0 493 18)))) [].

(** As [w_go], but [tmp] has mode 0600: it cannot be searched. *)
Definition w_noperm : World MemFS.t :=
  mkWorld (MemFS.with_nodes (fs0 384 18)
             (<["tmp/go" := MemFS.Dir 493]> (MemFS.nodes (fs0 384 18)))) [].

(** A gzip-compressed tar archive (131 bytes) of the directory [go/]
    (mode 0755) and the file [go/VERSION] (mode 0644, content
    [go1.21.0]), followed by the end-of-archive blocks. *)
Definition good_gz : list byte := Eval vm_compute in unhex
  "1f8b08000000000002ffedd13d0e82401080d13d0a27001677e10416369a68626f4549e2cffddd58122d2131bcd7cc7493c9374e4d585a5b0c397f66319f5ff67e97bb50e5b082d7e379bb9793619bc6a9b9eecf97c3e9b86cff3ea5dffde3bcff90620c55abff0afd63ddc57aabef0300000000000000c05f7b03fa82d76100280000".

Definition hdr_go : Header := mkHeader "go/" tar.TypeDir 0 493 "".
Definition hdr_VERSION : Header := mkHeader "go/VERSION" tar.TypeReg 8 420 "".

(** The body is delivered by one read; [gzip.NewReader] fills its 4096
    byte buffer with it. *)
Definition good_body : Stream :=
  mkStream [mkRead good_gz None] [4096%nat] None
           [mkItem [] hdr_go [];
            mkItem [] hdr_VERSION [mkTread [] (bytes_of "go1.21.0") (Some io_EOF)]]
           [4096%nat] io_EOF.

Definition good_sha256 : string :=
  "21fa1a691b99dbd0c8e1e80ed70aaa06f56d058c2313b2704c37f0234d3710db".

(** An archive (114 bytes) of the directory [evil/] (mode 0700) and the
    named pipe [go/fifo]. *)
Definition evil_gz : list byte := Eval vm_compute in unhex
  "1f8b08000000000002ffedd13b0e82401486d1bb1476c0488699f55888212121c1c7fa25b66a41810de734ffed6ef15d9ee3d4c6bed2aaa6f4def4b95fee526a174d1f7ff0b8ddcfcbfa328ee93ab7c338ccbbf72f396fe85fbb538ea6e80f0000000000000000f0d30b6dc1f15400280000".

Definition hdr_evil : Header := mkHeader "evil/" tar.TypeDir 0 448 "".
Definition hdr_fifo : Header := mkHeader "go/fifo" "6" 0 420 "".


Definition evil_sha256 : string :=
  "5c9bd77984b80da83a96ca9f377c39dd92087367a450a188d10ebd6fea9628ed".

Definition file_of (sha : string) : File :=
  mkFile "go1.21.0.linux-amd64.tar.gz" "linux" "amd64" sha "archive".

(** The server: one file. *)
Definition serve (body : Stream) (url : string) : result Response :=
  if String.eqb url "https://golang.org/dl/go1.21.0.linux-amd64.tar.gz"
  then Ok (mkResponse 200 "200 OK" body)
  else Ok (mkResponse 404 "404 Not Found" (mkStream [] [] None [] [] io_EOF)).

Definition fetch (body : Stream) (sha : string) (w : World MemFS.t)
  : option error * World MemFS.t :=
  Fetch (serve body) SHA256.Sum (file_of sha) "tmp" w.

(** The digest of [good_gz] in upper case. *)
Definition good_sha256_upper : string :=
  "21FA1A691B99DBD0C8E1E80ED70AAA06F56D058C2313B2704C37F0234D3710DB".

(** As [w0], with umask 0. *)
Definition w_umask0 : World MemFS.t := mkWorld (fs0 493 0) [].

(** A global header of the pax format, a symbolic link inside the
    tree, the symbolic link of the scenario of the spec, and one that
    points out of the destination. *)
Definition hdr_pax : Header :=
  mkHeader "go/sub/pax_global_header" tar.TypeXGlobalHeader 0 420 "".
Definition hdr_symlink : Header :=
  mkHeader "go/bin/go" tar.TypeSymlink 0 511 "go/pkg/tool/go".
Definition hdr_symlink_rel : Header :=
  mkHeader "go/bin/go" tar.TypeSymlink 0 511 "../pkg/tool/go".
Definition hdr_hardlink_out : Header :=
  mkHeader "go/passwd" tar.TypeLink 0 420 "../etc/passwd".
Definition hdr_escape : Header :=
  mkHeader "../../etc/passwd" tar.TypeReg 0 420 "".

(** A reader with nothing to deliver, for [store] on entries without data. *)
Definition tr0 : tarReader SHA256.Sum :=
  mkTar SHA256.Sum (@mkHashReader _ (sha256_New SHA256.Sum) [] ([] : list byte)) [] [] [] io_EOF.


(** A reader positioned on the data of [go/VERSION]. *)
Definition tr_VERSION : tarReader SHA256.Sum :=
  mkTar SHA256.Sum (@mkHashReader _ (sha256_New SHA256.Sum) [] ([] : list byte))
        [mkTread [] (bytes_of "go1.21.0") (Some io_EOF)] [] [] io_EOF.

(** A reader about to yield the header [h], the last of its archive. *)
Definition tr_before (h : Header) : tarReader SHA256.Sum :=
  mkTar SHA256.Sum (@mkHashReader _ (sha256_New SHA256.Sum) [] ([] : list byte))
        [] [mkItem [] h []] [] io_EOF.

(** A hard link to [go/VERSION], inside the tree. *)
Definition hdr_hardlink : Header :=
  mkHeader "go/VERSION.link" tar.TypeLink 0 420 "go/VERSION".

(** A gzip-compressed tar archive (45 bytes) without entries: the
    end-of-archive blocks only. *)
Definition empty_gz : list byte := Eval vm_compute in unhex
  "1f8b08000000000002ffedc1010d000000c2a0f74f6d0e37a00000000000000000008037039ade1d2700280000".

Definition empty_body : Stream :=
  mkStream [mkRead empty_gz None] [4096%nat] None [] [4096%nat] io_EOF.

Definition empty_sha256 : string :=
  "272adeccafe73e7009d51f2ec2be9871db5e0eb14239f483ea429be26c3c6402".

End Run.

(* ===================================================================== *)
(** ** Vocabulary of the properties *)
(* ===================================================================== *)

(** A read that returned bytes ([n > 0]). *)
Definition nonempty (b : list byte) : bool := (0 <? length b)%nat.

(** The bytes handed to [Write] calls among the events [evs]. *)
Definition written_bytes (evs : list event) : list byte :=
  concat (map (fun e => match e with EvWrite _ b => b | _ => [] end) evs).

(** A [Write] on the file created as [name]. *)
Definition is_write (name : string) (e : event) : Prop :=
  exists b, e = EvWrite name b.

(** [path] begins with a slash. *)
Definition rooted (path : string) : bool := Strings.HasPrefix path "/".

(** What [store] may do for an entry once [MkdirAll] is done: calls on the
    target [name], and links from [name] to a path [dstName] has let
    through. *)
Definition entry_event (dst name : string) (e : event) : Prop :=
  match e with
  | EvCreate n | EvWrite n _ | EvChmod n _ | EvClose n | EvMkdir n _ => n = name
  | EvLink l n | EvSymlink l n => n = name /\ exists raw, dstName dst raw = Ok l
  | _ => False
  end.

(** The world once [store] has called [MkdirAll] on the directory of the
    target. *)
Definition after_MkdirAll {S F} `{!OS S F} (name : string) (w : World S) : World S :=
  mkWorld (os_MkdirAll (Path.Dir name) 511 (fs w)).2
          (log w ++ [EvMkdirAll (Path.Dir name) 511]).

(** [dst] as [Fetch] rewrites it before use: [path.Clean(dst) + "/"]. *)
Definition dst_root (dst : string) : string := Path.Clean dst +:+ "/".

(** The address [Fetch] downloads from. *)
Definition url_of (file : File) : string := "https://golang.org/dl/" +:+ Filename file.

(** The checks of [Fetch] before the download pass. *)
Definition validated {S F} `{!OS S F} (file : File) (dst : string) (w : World S) : Prop :=
  Strings.HasSuffix (Filename file) ".tar.gz" = true
  /\ (exists fi, os_Stat dst (fs w) = Ok fi /\ IsDir fi = true)
  /\ (exists e, os_Stat (Path.Join [dst; "go"]) (fs w) = Err e).

(** The world when the response has arrived. *)
Definition downloading {S} (file : File) (dst : string) (w : World S) : World S :=
  emit (EvHttpGet (url_of file))
       (emit (EvStat (Path.Join [dst; "go"])) (emit (EvStat dst) w)).

(** The tar reader [Fetch] makes of a response body. *)
Definition start_reader (sha256_Sum : list byte -> list byte) (body : Stream)
  : tarReader sha256_Sum :=
  tar_NewReader sha256_Sum body
    (gzip_NewReader sha256_Sum body
       (@mkHashReader _ (sha256_New sha256_Sum) (raw body) ([] : list byte))).2.

(** A call of [os.Stat]. *)
Definition is_stat (e : event) : Prop := exists name, e = EvStat name.

(** The data the tar reader still has for the current entry. *)
Definition pending_data {sha256_Sum} (tr : tarReader sha256_Sum) : list byte :=
  concat (map t_bytes (tr_cur tr)).

(** The paths handed to [os.MkdirAll] among the events [evs], in order. *)
Definition mkdirall_paths (evs : list event) : list string :=
  flat_map (fun e => match e with EvMkdirAll p _ => [p] | _ => [] end) evs.

(** The path [Fetch] makes of the name of an entry. *)
Definition target (dst : string) (it : item) : string :=
  Path.Clean (Path.Join [dst; Name (it_hdr it)]).

(** [path] begins with [root]. *)
Definition under (root path : string) : Prop := Strings.HasPrefix path root = true.

(** What the loop of [Fetch] may call: the tar reader, [MkdirAll] on the
    directory of a path under [root], and the other calls on paths
    under [root]. *)
Definition loop_event (root : string) (e : event) : Prop :=
  match e with
  | EvTarNext => True
  | EvMkdirAll p _ => exists n, under root n /\ p = Path.Dir n
  | EvMkdir n _ | EvCreate n | EvWrite n _ | EvChmod n _ | EvClose n => under root n
  | EvLink l n | EvSymlink l n => under root l /\ under root n
  | _ => False
  end.

(** What [Fetch] may call in all. *)
Definition fetch_event (file : File) (dst : string) (e : event) : Prop :=
  match e with
  | EvStat n => n = dst \/ n = Path.Join [dst; "go"]
  | EvHttpGet u => u = url_of file
  | EvBodyClose | EvGzipNewReader | EvGzipClose => True
  | EvRemoveAll p => p = Path.Join [dst_root dst; "go"]
  | _ => loop_event (dst_root dst) e
  end.



(** Closing the response body or the gzip reader. *)
Definition is_close (e : event) : Prop := e = EvBodyClose \/ e = EvGzipClose.

(** The output of [path.Clean] so far is empty, or begins with a path
    element that is neither empty nor a single dot. *)
Definition okstart (o : list ascii) : Prop :=
  match o with
  | [] => True
  | c :: t => c <> Path.slash /\ (c = Path.dot -> Path.end_or_slash t = false)
  end.

(** [o] does not begin with a slash. *)
Definition nohead (o : list ascii) : Prop :=
  match o with
  | [] => True
  | c :: _ => c <> Path.slash
  end.

(** What the loop of [path.Clean] keeps true of its output buffer [ro]
    (reversed) and of [dotdot]: a rooted output is one slash followed by
    no second slash, [dotdot] being 1; an unrooted output begins with a
    proper element, [dotdot] being 0, or with [..], which [dotdot]
    protects. *)
Definition clean_inv (rooted : bool) (ro : list ascii) (dotdot : nat) : Prop :=
  if rooted then
    dotdot = 1%nat /\ exists t, rev ro = Path.slash :: t /\ nohead t
  else
    (dotdot = 0%nat /\ okstart (rev ro))
    \/ ((2 <= dotdot <= length ro)%nat /\ exists t, rev ro = Path.dot :: Path.dot :: t).

(** The number of [Close] calls among the events [evs]. *)
Definition closes (evs : list event) : nat :=
  length (List.filter (fun e => match e with EvClose _ => true | _ => false end) evs).

(* ===================================================================== *)
(** * Properties *)
(* ===================================================================== *)

Example Clean_ex1 : Path.Clean "tmp//go/../go/./VERSION/" = "tmp/go/VERSION".
Proof. reflexivity. Qed.
Example Clean_ex2 : Path.Clean "/../a/b/../../.." = "/".
Proof. reflexivity. Qed.
Example Clean_ex3 : Path.Clean "a/../../b" = "../b".
Proof. reflexivity. Qed.
Example Clean_ex4 : Path.Clean "" = "." /\ Path.Clean "./" = "." /\ Path.Clean "abc/.." = ".".
Proof. repeat split; reflexivity. Qed.
Example Clean_ex5 : Path.Clean "../../x/..y/.z/" = "../../x/..y/.z".
Proof. reflexivity. Qed.
Example Join_ex1 : Path.Join ["tmp/"; "go/bin/go"] = "tmp/go/bin/go".
Proof. reflexivity. Qed.
Example Join_ex2 : Path.Join [""; ""] = "" /\ Path.Join [""; "a"] = "a" /\ Path.Join ["a"; ""] = "a".
Proof. repeat split; reflexivity. Qed.
Example Dir_ex1 : Path.Dir "tmp/go/bin/go" = "tmp/go/bin" /\ Path.Dir "tmp/x" = "tmp"
                  /\ Path.Dir "x" = "." /\ Path.Dir "/x" = "/".
Proof. repeat split; reflexivity. Qed.
Example Clean_ex6 : Path.Clean "abc/def/../../../ghi/jkl/../../../mno" = "../../mno"
                    /\ Path.Clean "abc/../../././../def" = "../../def"
                    /\ Path.Clean "/../abc" = "/abc" /\ Path.Clean "../../" = "../.."
                    /\ Path.Clean "abc//def//ghi" = "abc/def/ghi" /\ Path.Clean "///" = "/".
Proof. repeat split; reflexivity. Qed.
Example HasSuffix_ex : Strings.HasSuffix "go1.21.0.linux-amd64.tar.gz" ".tar.gz" = true
                       /\ Strings.HasSuffix "go1.21.0.windows-amd64.zip" ".tar.gz" = false
                       /\ Strings.HasSuffix "gz" ".tar.gz" = false.
Proof. repeat split; reflexivity. Qed.

Example SHA256_empty :
  fmt.hex_bytes (SHA256.Sum []) = "e3b0c44298fc1c149afbf4c8996fb92427ae41e4649b934ca495991b7852b855".
Proof. vm_compute. reflexivity. Qed.
Example SHA256_abc :
  fmt.hex_bytes (SHA256.Sum (bytes_of "abc")) = "ba7816bf8f01cfea414140de5dae2223b00361a396177a9cb410ff61f20015ad".
Proof. vm_compute. reflexivity. Qed.
Example SHA256_two_blocks :
  fmt.hex_bytes (SHA256.Sum (bytes_of "abcdbcdecdefdefgefghfghighijhijkijkljklmklmnlmnomnopnopq"))
  = "248d6a61d20638b8e5c026930c3e6039a33ce45964ff2167f6ecedd419db06c1".
Proof. vm_compute. reflexivity. Qed.

Example good_gz_digest : fmt.hex_bytes (SHA256.Sum Run.good_gz) = Run.good_sha256.
Proof. vm_compute. reflexivity. Qed.
Example evil_gz_digest : fmt.hex_bytes (SHA256.Sum Run.evil_gz) = Run.evil_sha256.
Proof. vm_compute. reflexivity. Qed.

(* ===================================================================== *)
(** ** The digesting reader *)
(* ===================================================================== *)

Section hashReader_props.
Context {R : Type} (r_Read : Reader R) (H : Hash).

Lemma hashReader_Read_eq (len : nat) (hr : @hashReader R H) :
  hashReader_Read r_Read H len hr =
  let '(res, r') := r_Read len (hr_r hr) in
  (res, mkHashReader r'
          (if nonempty (rd_bytes res)
           then hash_Write H (hr_h hr) (rd_bytes res) else hr_h hr)).
Proof.
  unfold hashReader_Read, nonempty.
  destruct (r_Read len (hr_r hr)) as [res r'].
  by rewrite firstn_all.
Qed.

(** C8.  Whatever reads a caller makes on the digesting reader, it sees
    the results (bytes and error) the wrapped source returns for these
    reads, the source is left as these reads leave it, and the digest has
    been fed every chunk of bytes returned, in order; the error a chunk
    comes with plays no role. *)
Theorem hashReader_Read_passes_and_digests (lens : list nat) (hr : @hashReader R H) :
  io.reads (hashReader_Read r_Read H) lens hr =
  let '(ress, r') := io.reads r_Read lens (hr_r hr) in
  (ress,
   mkHashReader r'
     (fold_left (hash_Write H) (List.filter nonempty (map rd_bytes ress)) (hr_h hr))).
Proof.
  revert hr. induction lens as [|len lens IH]; intros [r h]; simpl.
  - reflexivity.
  - rewrite hashReader_Read_eq. simpl.
    destruct (r_Read len r) as [res r1].
    rewrite IH. simpl.
    destruct (io.reads r_Read lens r1) as [ress r2]. simpl.
    by destruct (nonempty (rd_bytes res)).
Qed.
End hashReader_props.

Lemma reads_cons {R : Type} (Read : Reader R) (len : nat) (lens : list nat) (r : R) :
  io.reads Read (len :: lens) r
  = ((Read len r).1 :: (io.reads Read lens (Read len r).2).1,
     (io.reads Read lens (Read len r).2).2).
Proof.
  simpl. destruct (Read len r) as [res r1]. simpl.
  by destruct (io.reads Read lens r1).
Qed.

(** With [sha256.New()], the state after a library's reads is the state
    before followed by all the bytes these reads returned. *)
Lemma hr_consume_digest (sha256_Sum : list byte -> list byte) (lens : list nat)
      (hr : hreader sha256_Sum) :
  hr_h (hr_consume sha256_Sum lens hr)
  = hr_h hr ++ concat (map rd_bytes (io.reads io.script_Read lens (hr_r hr)).1).
Proof.
  unfold hr_consume, hr_Read. revert hr.
  induction lens as [|len lens IH]; intros hr.
  - simpl. by rewrite app_nil_r.
  - rewrite !reads_cons. cbn [fst snd map concat]. rewrite IH.
    rewrite hashReader_Read_eq.
    destruct (io.script_Read len (hr_r hr)) as [res r1]. cbn [fst snd hr_h hr_r].
    unfold nonempty.
    destruct (rd_bytes res) as [|b bs]; simpl; [done|]. by rewrite <- app_assoc.
Qed.

(* ===================================================================== *)
(** ** [io.Copy] from a limited reader *)
(* ===================================================================== *)

(** Equations between logs: reassociate, then compare. *)
(** Comparisons of two literal type flags. *)
Ltac flag_eval :=
  repeat match goal with
    | |- context [Ascii.eqb ?a ?b] =>
        let v := eval vm_compute in (Ascii.eqb a b) in
        lazymatch v with
        | true => change (Ascii.eqb a b) with true
        | false => change (Ascii.eqb a b) with false
        end
    end.

(** Runs the left-hand side of an equation, then compares. *)
Ltac run_lhs :=
  lazymatch goal with
  | |- ?l = _ =>
      let x := eval vm_compute in l in
      transitivity x; [vm_compute; reflexivity | reflexivity]
  end.

(** Lists of events that are allowed one by one. *)
Ltac each_event :=
  repeat match goal with
    | |- Forall _ [] => constructor
    | |- Forall _ (_ :: _) => constructor; [first [by left | by right | done]|]
    end.

Ltac log_eq :=
  simpl; rewrite ?app_nil_r; repeat rewrite <- app_assoc; simpl;
  try reflexivity; try done.

Lemma call_eq {S A} (e : event) (op : S -> A * S) (w : World S) :
  call e op w = ((op (fs w)).1, mkWorld (op (fs w)).2 (log w ++ [e])).
Proof. unfold call. by destruct (op (fs w)). Qed.

Section Copy_props.
Context {R W : Type} (Read : Reader R) (Write : Writer W).

(** What a round does, case by case. *)
Lemma copy_round_cases (size : nat) (written : Z) (r : R) (w : W) :
  exists written1 w1 stop,
    io.copy_round Read Write size written r w = ((written1, (Read size r).2, w1), stop)
    /\ (stop = None -> rd_err (Read size r).1 = None)
    /\ ((rd_bytes (Read size r).1 = [] /\ written1 = written /\ w1 = w)
        \/ (rd_bytes (Read size r).1 <> []
            /\ w1 = (Write (rd_bytes (Read size r).1) w).2
            /\ (written <= written1 <= written + Z.of_nat (length (rd_bytes (Read size r).1)))%Z)).
Proof.
  unfold io.copy_round.
  destruct (Read size r) as [[bytes er] r1]; simpl.
  destruct (0 <? Z.of_nat (length bytes))%Z eqn:Hnr.
  - apply Z.ltb_lt in Hnr.
    assert (Hne : bytes <> []) by (intros ->; simpl in Hnr; lia).
    destruct (Write bytes w) as [[nw0 ew0] w1] eqn:HW; simpl.
    destruct ((nw0 <? 0)%Z || (Z.of_nat (length bytes) <? nw0)%Z) eqn:Hbad.
    + destruct ew0 as [e|]; eexists _, _, _; (split; [reflexivity|]);
        (split; [discriminate|]); right; repeat split; auto; lia.
    + apply orb_false_iff in Hbad as [H1 H2].
      apply Z.ltb_ge in H1, H2.
      destruct ew0 as [e|].
      * eexists _, _, _; split; [reflexivity|]. split; [discriminate|].
        right; repeat split; auto; lia.
      * destruct (negb (Z.of_nat (length bytes) =? nw0)%Z).
        -- eexists _, _, _; split; [reflexivity|]. split; [discriminate|].
           right; repeat split; auto; lia.
        -- destruct er as [[]|]; eexists _, _, _; (split; [reflexivity|]);
             (split; [try discriminate; auto|]); right; repeat split; auto; lia.
  - apply Z.ltb_ge in Hnr.
    assert (bytes = []) as -> by (destruct bytes; [done | simpl in Hnr; lia]).
    destruct er as [[]|]; eexists _, _, _; (split; [reflexivity|]);
      (split; [try discriminate; auto|]); left; auto.
Qed.

(** What every round keeps, the loop keeps. *)
Lemma copyBuffer_inv (I : Z -> R -> W -> Prop) (size : nat) :
  (forall written r w, I written r w ->
     I (io.copy_round Read Write size written r w).1.1.1
       (io.copy_round Read Write size written r w).1.1.2
       (io.copy_round Read Write size written r w).1.2) ->
  forall fuel written r w n err r' w',
    I written r w ->
    io.copyBuffer Read Write fuel size written r w = Some ((n, err), r', w') ->
    I n r' w'.
Proof.
  intros Hround. induction fuel as [|fuel IH]; intros written r w n err r' w' HI Hc.
  - discriminate.
  - simpl in Hc. specialize (Hround _ _ _ HI).
    destruct (io.copy_round Read Write size written r w) as [[[written1 r1] w1] stop].
    simpl in Hround. destruct stop as [e|].
    + by inversion Hc; subst.
    + eapply IH; [exact Hround | exact Hc].
Qed.

(** The loop ends when every round that goes on makes the source smaller. *)
Lemma copyBuffer_ends (mu : R -> nat) (size : nat) :
  (forall written r w,
     (io.copy_round Read Write size written r w).2 = None ->
     (mu (io.copy_round Read Write size written r w).1.1.2 < mu r)%nat) ->
  forall fuel written r w,
    (mu r < fuel)%nat -> is_Some (io.copyBuffer Read Write fuel size written r w).
Proof.
  intros Hdec. induction fuel as [|fuel IH]; intros written r w Hmu; [lia|].
  simpl. specialize (Hdec written r w).
  destruct (io.copy_round Read Write size written r w) as [[[written1 r1] w1] stop].
  simpl in Hdec. destruct stop as [e|]; [by eexists|].
  apply IH. specialize (Hdec eq_refl). lia.
Qed.
End Copy_props.

(* ===================================================================== *)
(** ** The tar reader and [io.Copy] in [store] *)
(* ===================================================================== *)

Section Fetch_props.
Context {S F : Type} `{!OS S F}.
Variable http_Get : string -> result Response.
Variable sha256_Sum : list byte -> list byte.

Implicit Types (tr : tarReader sha256_Sum) (w : World S) (h : Header).

Local Arguments io.LimitedReader_Read : simpl never.
Local Arguments tar_Read : simpl never.
Local Arguments copy_fuel : simpl never.
Local Arguments io.copy_size : simpl never.

Lemma tar_Read_len len tr :
  (length (rd_bytes (tar_Read sha256_Sum len tr).1) <= len)%nat.
Proof.
  unfold tar_Read. destruct (tr_cur tr) as [|t rest]; simpl; [lia|].
  destruct (length (t_bytes t) <=? len)%nat eqn:E; simpl.
  - by apply Nat.leb_le in E.
  - rewrite length_take. lia.
Qed.

Lemma tar_Read_items len tr :
  tr_items (tar_Read sha256_Sum len tr).2 = tr_items tr.
Proof.
  unfold tar_Read. destruct (tr_cur tr) as [|t rest]; simpl; [done|].
  by destruct (length (t_bytes t) <=? len)%nat.
Qed.

Lemma tar_Read_progress len tr :
  (1 <= len)%nat ->
  rd_err (tar_Read sha256_Sum len tr).1 = None ->
  (copy_fuel sha256_Sum (tar_Read sha256_Sum len tr).2 < copy_fuel sha256_Sum tr)%nat.
Proof.
  intros Hlen. unfold tar_Read, copy_fuel.
  destruct (tr_cur tr) as [|t rest]; simpl; [discriminate|].
  destruct (length (t_bytes t) <=? len)%nat eqn:E; simpl; intros _.
  - lia.
  - apply Nat.leb_gt in E. rewrite length_drop. lia.
Qed.

Lemma copy_size_pos N : (1 <= io.copy_size N)%nat.
Proof.
  unfold io.copy_size.
  destruct (N <? 32 * 1024)%Z; [|lia].
  destruct (N <? 1)%Z eqn:E; [lia|]. apply Z.ltb_ge in E. lia.
Qed.

(** A read through [io.LimitReader(tr, N)]: never more than what is
    left of [N]. *)
Lemma limited_Read_spec size tr N :
  let out := io.LimitedReader_Read (tar_Read sha256_Sum) size (tr, N) in
  tr_items out.2.1 = tr_items tr
  /\ (Z.max 0 out.2.2 + Z.of_nat (length (rd_bytes out.1)) = Z.max 0 N)%Z
  /\ ((1 <= size)%nat -> rd_err out.1 = None ->
      (copy_fuel sha256_Sum out.2.1 < copy_fuel sha256_Sum tr)%nat).
Proof.
  unfold io.LimitedReader_Read.
  destruct (N <=? 0)%Z eqn:EN; simpl.
  - apply Z.leb_le in EN. repeat split; [lia | discriminate].
  - apply Z.leb_gt in EN.
    set (len' := if (N <? Z.of_nat size)%Z then Z.to_nat N else size).
    pose proof (tar_Read_len len' tr) as Hlen.
    pose proof (tar_Read_items len' tr) as Hit.
    pose proof (tar_Read_progress len' tr) as Hpr.
    destruct (tar_Read sha256_Sum len' tr) as [res tr1]; simpl in *.
    assert (Z.of_nat len' <= N)%Z.
    { subst len'. destruct (N <? Z.of_nat size)%Z eqn:E; [lia|].
      apply Z.ltb_ge in E. lia. }
    repeat split; [done | lia |].
    intros Hsize. apply Hpr. subst len'.
    destruct (N <? Z.of_nat size)%Z; lia.
Qed.

(** [io.Copy(f, io.LimitReader(tr, N))] ends within [copy_fuel] rounds. *)
Lemma copyBuffer_tar_enough (f : F) name tr N w :
  is_Some (io.copyBuffer (io.LimitedReader_Read (tar_Read sha256_Sum))
                         (File_Write f name)
                         (copy_fuel sha256_Sum tr) (io.copy_size N) 0 (tr, N) w).
Proof.
  apply (copyBuffer_ends _ _ (fun lr => pred (copy_fuel sha256_Sum lr.1))).
  - intros written [tr1 N1] w1 Hstop.
    destruct (copy_round_cases (io.LimitedReader_Read (tar_Read sha256_Sum))
                (File_Write f name) (io.copy_size N) written (tr1, N1) w1)
      as (wr & w2 & stop & Heq & Hnone & _).
    rewrite Heq in Hstop |- *. simpl in *. subst stop.
    destruct (limited_Read_spec (io.copy_size N) tr1 N1) as (_ & _ & Hpr).
    specialize (Hpr (copy_size_pos N) (Hnone eq_refl)).
    unfold copy_fuel in Hpr. simpl in Hpr. lia.
  - unfold copy_fuel. simpl. lia.
Qed.

(** What [io.Copy] in [store] does: it leaves the entries to come alone,
    only writes to the file, and neither reads nor writes more than [N]
    bytes. *)
Lemma io_Copy_spec (f : F) name tr N w n err tr' w' :
  io_Copy sha256_Sum f name (tr, N) w = ((n, err), tr', w') ->
  tr_items tr' = tr_items tr
  /\ exists evs, log w' = log w ++ evs
      /\ Forall (is_write name) evs
      /\ (0 <= n <= Z.max 0 N)%Z
      /\ (Z.of_nat (length (written_bytes evs)) <= Z.max 0 N)%Z.
Proof.
  unfold io_Copy.
  destruct (copyBuffer_tar_enough f name tr N w) as [[[[n0 e0] [tr0 N0]] w0] Hc].
  cbn [fst snd]. rewrite Hc. intros Heq. inversion Heq; subst; clear Heq.
  pose (I := fun (written : Z) (lr : tarReader sha256_Sum * Z) (w1 : World S) =>
    tr_items lr.1 = tr_items tr
    /\ exists evs, log w1 = log w ++ evs
        /\ Forall (is_write name) evs
        /\ (0 <= written)%Z
        /\ (written + Z.max 0 lr.2 <= Z.max 0 N)%Z
        /\ (Z.of_nat (length (written_bytes evs)) + Z.max 0 lr.2 <= Z.max 0 N)%Z).
  assert (HI : I n (tr', N0) w').
  { eapply (copyBuffer_inv _ _ I); [| | exact Hc].
    - clear. intros written [tr1 N1] w1 (Hit & evs & Hlog & Hev & H0 & Hn & Hb).
      destruct (copy_round_cases (io.LimitedReader_Read (tar_Read sha256_Sum))
                  (File_Write f name) (io.copy_size N) written (tr1, N1) w1)
        as (wr & w2 & stop & Heq & _ & Hcase).
      rewrite Heq. simpl.
      destruct (limited_Read_spec (io.copy_size N) tr1 N1) as (Hit1 & HN & _).
      simpl in *.
      destruct (io.LimitedReader_Read (tar_Read sha256_Sum) (io.copy_size N) (tr1, N1))
        as [res [tr2 N2]]; simpl in *.
      unfold I; cbn [fst snd].
      split; [congruence|].
      destruct Hcase as [(Hb0 & -> & ->) | (Hne & -> & Hwr)].
      + exists evs. rewrite Hb0 in HN. simpl in HN. repeat split; auto; lia.
      + exists (evs ++ [EvWrite name (rd_bytes res)]).
        unfold File_Write. rewrite call_eq. simpl.
        split; [by rewrite Hlog, app_assoc|].
        split; [apply Forall_app; split; [done|]; repeat constructor; by eexists|].
        unfold written_bytes in *. rewrite map_app, concat_app, length_app. simpl.
        rewrite app_nil_r. repeat split; lia.
    - split; [done|]. exists []. rewrite app_nil_r. repeat split; auto; simpl; lia. }
  destruct HI as (Hit & evs & Hlog & Hev & H0 & Hn & Hb). simpl in *.
  split; [done|]. exists evs. repeat split; auto; lia.
Qed.

(* =================================================================== *)
(** ** [store]: regular files *)
(* =================================================================== *)

(** The permission bits [store] hands to [Chmod] are the low nine bits of
    the mode in the header. *)
Lemma FileMode_ModePerm (m : Z) :
  Z.land (os_FileMode m) os_ModePerm = (m mod 512)%Z.
Proof.
  unfold os_FileMode, os_ModePerm.
  change 511%Z with (Z.ones 9). rewrite Z.land_ones by lia.
  apply Z.mod_mod_divide. exists (2 ^ 23)%Z. reflexivity.
Qed.



(* =================================================================== *)
(** ** [store]: the other entries *)
(* =================================================================== *)

Lemma call_MkdirAll name w :
  call (EvMkdirAll (Path.Dir name) 511) (os_MkdirAll (Path.Dir name) 511) w
  = ((os_MkdirAll (Path.Dir name) 511 (fs w)).1, after_MkdirAll name w).
Proof. by rewrite call_eq. Qed.

(** C6, amended.  For an entry that is neither a regular file, a link, a
    symbolic link nor a directory, [store] makes one call, [MkdirAll] on
    the directory of the target, and then returns: [nil] for a global
    header or a GNU sparse entry, the error "unsupported tar header
    typeflag" for every other type. *)
Theorem store_skipped_or_unsupported dst tr h name w :
  Typeflag h <> tar.TypeReg -> Typeflag h <> tar.TypeLink ->
  Typeflag h <> tar.TypeSymlink -> Typeflag h <> tar.TypeDir ->
  store sha256_Sum dst tr h name w =
  (if Ascii.eqb (Typeflag h) tar.TypeXGlobalHeader
      || Ascii.eqb (Typeflag h) tar.TypeGNUSparse
   then None else Some (ErrTypeflag (Typeflag h)),
   tr, after_MkdirAll name w).
Proof.
  intros H1 H2 H3 H4. unfold store. rewrite call_MkdirAll.
  apply Ascii.eqb_neq in H1, H2, H3, H4. rewrite H1, H2, H3, H4.
  by destruct (_ || _).
Qed.

(** C7, amended.  For a directory entry, [store] calls [MkdirAll] on the
    parent and then [os.Mkdir(name, 0777)]: the mode is the constant 0777
    whatever the header declares, and the result is that of [Mkdir]. *)
Theorem store_directory dst tr h name w :
  Typeflag h = tar.TypeDir ->
  store sha256_Sum dst tr h name w =
  ((os_Mkdir name 511 (fs (after_MkdirAll name w))).1, tr,
   mkWorld (os_Mkdir name 511 (fs (after_MkdirAll name w))).2
           (log w ++ [EvMkdirAll (Path.Dir name) 511; EvMkdir name 511])).
Proof.
  intros Hty. unfold store. rewrite call_MkdirAll, Hty. flag_eval. cbv iota.
  rewrite call_eq. cbn [fst snd log after_MkdirAll]. by rewrite <- app_assoc.
Qed.

Lemma dstName_Ok dst raw r :
  dstName dst raw = Ok r <->
  r = Path.Clean (Path.Join [dst; raw]) /\ Strings.HasPrefix r dst = true.
Proof.
  unfold dstName.
  destruct (Strings.HasPrefix (Path.Clean (Path.Join [dst; raw])) dst) eqn:E; simpl.
  - split; [intros [= <-]; auto | intros [-> _]; auto].
  - split; [discriminate | intros [-> HE]; congruence].
Qed.

Lemma dstName_Err dst raw e :
  dstName dst raw = Err e ->
  e = ErrBadPath raw (Path.Clean (Path.Join [dst; raw])) dst
  /\ Strings.HasPrefix (Path.Clean (Path.Join [dst; raw])) dst = false.
Proof.
  unfold dstName.
  destruct (Strings.HasPrefix (Path.Clean (Path.Join [dst; raw])) dst); simpl;
    [discriminate | intros [= <-]; auto].
Qed.



(** Whatever the entry, [store] first calls [MkdirAll] on the directory
    of the target; what follows only touches the target, and links it
    only to a path [dstName] has let through. *)
Lemma store_log dst tr h name w err tr' w' :
  store sha256_Sum dst tr h name w = (err, tr', w') ->
  tr_items tr' = tr_items tr
  /\ exists evs, log w' = log w ++ EvMkdirAll (Path.Dir name) 511 :: evs
      /\ Forall (entry_event dst name) evs.
Proof.
  unfold store. rewrite call_MkdirAll.
  destruct (Ascii.eqb (Typeflag h) tar.TypeReg) eqn:E1.
  { rewrite call_eq.
    destruct (os_Create name (fs (after_MkdirAll name w))) as [[f|e] s2];
      cbn [fst snd].
    2:{ intros [= <- <- <-]. split; [done|]. exists [EvCreate name].
        split; [log_eq|]. by repeat constructor. }
    destruct (io_Copy sha256_Sum f name (tr, Size h) _) as [[[n cerr] tr3] w3] eqn:Hcopy.
    destruct (io_Copy_spec _ _ _ _ _ _ _ _ _ Hcopy) as (Hit & evs & Hlog & Hev & _).
    simpl in Hlog.
    assert (Hev' : Forall (entry_event dst name) evs).
    { eapply Forall_impl; [exact Hev|]. by intros e [b ->]. }
    assert (Hcl : forall w4, log w4 = log w3 ->
              log (call (EvClose name) (file_Close f) w4).2 = log w3 ++ [EvClose name]).
    { intros w4 H4. rewrite call_eq. simpl. by rewrite H4. }
    destruct cerr as [e|].
    { intros [= <- <- <-]. split; [done|].
      exists (EvCreate name :: evs ++ [EvClose name]).
      split; [rewrite Hcl, Hlog by done; log_eq|].
      constructor; [done|]. apply Forall_app. split; [done|]. by repeat constructor. }
    destruct (negb (n =? Size h)%Z).
    { intros [= <- <- <-]. split; [done|].
      exists (EvCreate name :: evs ++ [EvClose name]).
      split; [rewrite Hcl, Hlog by done; log_eq|].
      constructor; [done|]. apply Forall_app. split; [done|]. by repeat constructor. }
    rewrite (call_eq (EvChmod _ _)). cbn [fst snd].
    destruct (file_Chmod f _ (fs w3)) as [[e|] s4]; cbn [fst snd].
    { intros [= <- <- <-]. split; [done|].
      exists (EvCreate name :: evs ++ [EvChmod name (Z.land (os_FileMode (Mode h)) os_ModePerm);
                                       EvClose name]).
      split; [rewrite call_eq; simpl; rewrite Hlog; log_eq|].
      constructor; [done|]. apply Forall_app. split; [done|]. by repeat constructor. }
    rewrite (call_eq (EvClose _)). cbn [fst snd log fs].
    destruct (file_Close f s4) as [[e|] s5]; cbn [fst snd].
    { intros [= <- <- <-]. split; [done|].
      exists (EvCreate name :: evs ++ [EvChmod name (Z.land (os_FileMode (Mode h)) os_ModePerm);
                                       EvClose name; EvClose name]).
      split; [rewrite call_eq; simpl; rewrite Hlog; log_eq|].
      constructor; [done|]. apply Forall_app. split; [done|]. by repeat constructor. }
    intros [= <- <- <-]. split; [done|].
    exists (EvCreate name :: evs ++ [EvChmod name (Z.land (os_FileMode (Mode h)) os_ModePerm);
                                     EvClose name]).
    split; [simpl; rewrite Hlog; log_eq|].
    constructor; [done|]. apply Forall_app. split; [done|]. by repeat constructor. }
  destruct (Ascii.eqb (Typeflag h) tar.TypeLink).
  { destruct (dstName dst (Linkname h)) as [l|e] eqn:Hd.
    - rewrite call_eq. intros [= <- <- <-]. split; [done|].
      exists [EvLink l name]. split; [log_eq|].
      repeat constructor. by exists (Linkname h).
    - intros [= <- <- <-]. split; [done|]. exists []. split; [log_eq|done]. }
  destruct (Ascii.eqb (Typeflag h) tar.TypeSymlink).
  { destruct (dstName dst (Linkname h)) as [l|e] eqn:Hd.
    - rewrite call_eq. intros [= <- <- <-]. split; [done|].
      exists [EvSymlink l name]. split; [log_eq|].
      repeat constructor. by exists (Linkname h).
    - intros [= <- <- <-]. split; [done|]. exists []. split; [log_eq|done]. }
  destruct (Ascii.eqb (Typeflag h) tar.TypeDir).
  { rewrite call_eq. intros [= <- <- <-]. split; [done|].
    exists [EvMkdir name 511]. split; [log_eq|]. by repeat constructor. }
  destruct (_ || _); intros [= <- <- <-]; (split; [done|]); exists [];
    (split; [log_eq|done]).
Qed.


(* =================================================================== *)
(** ** The loop over the entries *)
(* =================================================================== *)

Lemma tar_Next_items tr :
  match (tar_Next sha256_Sum tr).1 with
  | Ok h => exists it, tr_items tr = it :: tr_items (tar_Next sha256_Sum tr).2
                       /\ h = it_hdr it
  | Err e => tr_items tr = [] /\ e = tr_end_err tr
  end.
Proof.
  unfold tar_Next. destruct (tr_items tr) as [|it rest]; simpl; [done|].
  by exists it.
Qed.

(** The loop is done within one round per entry, and one more. *)
Lemma extract_enough fuel dst tr w :
  (length (tr_items tr) < fuel)%nat ->
  is_Some (extract sha256_Sum fuel dst tr w).
Proof.
  revert tr w. induction fuel as [|fuel IH]; intros tr w Hlen; [lia|].
  simpl. pose proof (tar_Next_items tr) as HN.
  destruct (tar_Next sha256_Sum tr) as [[h|e] tr1]; simpl in HN.
  - destruct HN as (it & Hit & _).
    destruct (dstName dst (Name h)) as [name|e]; [|by eexists].
    destruct (store sha256_Sum dst tr1 h name (emit EvTarNext w))
      as [[err tr2] w2] eqn:Hst.
    apply store_log in Hst as [Hit2 _].
    destruct err; [by eexists|]. apply IH.
    rewrite Hit2. rewrite Hit in Hlen. simpl in Hlen. lia.
  - destruct (is_EOF e); by eexists.
Qed.

(** More rounds than needed change nothing. *)
Lemma extract_more fuel fuel' dst tr w r :
  (fuel <= fuel')%nat ->
  extract sha256_Sum fuel dst tr w = Some r ->
  extract sha256_Sum fuel' dst tr w = Some r.
Proof.
  revert fuel' tr w. induction fuel as [|fuel IH]; intros fuel' tr w Hle; [done|].
  destruct fuel' as [|fuel']; [lia|]. simpl.
  destruct (tar_Next sha256_Sum tr) as [[h|e] tr1]; [|done].
  destruct (dstName dst (Name h)) as [name|e]; [|done].
  destruct (store sha256_Sum dst tr1 h name (emit EvTarNext w)) as [[[err|] tr2] w2];
    [done|]. apply IH. lia.
Qed.

(** C1, amended.  When the tar reader yields the header [h], the round
    of the loop first checks that the cleaned join of [dst] and [h.Name]
    begins with [dst].  If it does not, the loop ends with the bad-path
    error and no call of the file system was made for the entry.  If it
    does, [store] runs: [MkdirAll] on the directory of the target, then
    only calls on the target itself; for a hard link or a symbolic link
    the link name is checked in the same way before the link is made,
    and when that check fails [store] returns the bad-path error and
    makes no further call. *)
Theorem entry_paths_checked fuel dst tr w h tr1 :
  tar_Next sha256_Sum tr = (Ok h, tr1) ->
  match dstName dst (Name h) with
  | Err _ =>
      extract sha256_Sum (Datatypes.S fuel) dst tr w =
      Some (Some (ErrBadPath (Name h) (Path.Clean (Path.Join [dst; Name h])) dst),
            tr1, emit EvTarNext w)
  | Ok name =>
      Strings.HasPrefix name dst = true
      /\ exists err tr2 w2 evs,
          store sha256_Sum dst tr1 h name (emit EvTarNext w) = (err, tr2, w2)
          /\ extract sha256_Sum (Datatypes.S fuel) dst tr w =
             match err with
             | Some e => Some (Some e, tr2, w2)
             | None => extract sha256_Sum fuel dst tr2 w2
             end
          /\ log w2 = log w ++ EvTarNext :: EvMkdirAll (Path.Dir name) 511 :: evs
          /\ Forall (entry_event dst name) evs
          /\ (Typeflag h = tar.TypeLink \/ Typeflag h = tar.TypeSymlink ->
              Strings.HasPrefix (Path.Clean (Path.Join [dst; Linkname h])) dst = false ->
              err = Some (ErrBadPath (Linkname h)
                            (Path.Clean (Path.Join [dst; Linkname h])) dst)
              /\ evs = [])
  end.
Proof.
  intros HN. cbn [extract]. rewrite HN.
  destruct (dstName dst (Name h)) as [name|e] eqn:Hd.
  - apply dstName_Ok in Hd as [Hname Hp]. split; [done|].
    destruct (store sha256_Sum dst tr1 h name (emit EvTarNext w))
      as [[err tr2] w2] eqn:Hst.
    destruct (store_log _ _ _ _ _ _ _ _ Hst) as (_ & evs & Hlog & Hev).
    exists err, tr2, w2, evs. split; [done|]. split; [by destruct err|].
    split; [rewrite Hlog; log_eq|]. split; [done|].
    intros Hty Hbad.
    assert (Hl : dstName dst (Linkname h)
                 = Err (ErrBadPath (Linkname h)
                          (Path.Clean (Path.Join [dst; Linkname h])) dst)).
    { unfold dstName. by rewrite Hbad. }
    revert Hst. unfold store. rewrite call_MkdirAll.
    destruct Hty as [Hty|Hty]; rewrite Hty; flag_eval; cbv iota; rewrite Hl;
      intros [= <- <- <-]; (split; [done|]);
      simpl in Hlog; rewrite <- !app_assoc in Hlog; simpl in Hlog;
      apply app_inv_head in Hlog; by inversion Hlog.
  - by apply dstName_Err in Hd as [-> _].
Qed.


(* =================================================================== *)
(** ** [Fetch] *)
(* =================================================================== *)

Lemma extract_log fuel dst tr w r tr' w' :
  extract sha256_Sum fuel dst tr w = Some (r, tr', w') ->
  exists evs, log w' = log w ++ EvTarNext :: evs.
Proof.
  revert tr w. induction fuel as [|fuel IH]; intros tr w; [done|].
  simpl. destruct (tar_Next sha256_Sum tr) as [[h|e] tr1].
  - destruct (dstName dst (Name h)) as [name|e].
    + destruct (store sha256_Sum dst tr1 h name (emit EvTarNext w))
        as [[err tr2] w2] eqn:Hst.
      apply store_log in Hst as (_ & evs & Hlog & _). simpl in Hlog.
      destruct err as [e|].
      * intros [= <- <- <-]. eexists. rewrite Hlog. log_eq.
      * intros Hex. apply IH in Hex as [evs' Hlog'].
        eexists. rewrite Hlog', Hlog. log_eq.
    + intros [= <- <- <-]. by exists [].
  - destruct (is_EOF e); intros [= <- <- <-]; by exists [].
Qed.

(** [Fetch] after the rollback is deferred: it reports success exactly
    when it returns no error, and the first thing it does is to ask the
    tar reader for a header. *)
Lemma Fetch_extract_spec file dst tr w success err w' :
  Fetch_extract sha256_Sum file dst tr w = (success, err, w') ->
  (success = true <-> err = None)
  /\ exists evs, log w' = log w ++ EvTarNext :: evs.
Proof.
  unfold Fetch_extract.
  destruct (extract_enough (Datatypes.S (length (tr_items tr))) dst tr w)
    as [[[r tr1] w1] Hex]; [lia|].
  rewrite Hex. apply extract_log in Hex as [evs Hlog].
  destruct r as [e|].
  - intros [= <- <- <-]. split; [done|]. by exists evs.
  - destruct (negb _); intros [= <- <- <-]; (split; [done|]); by exists evs.
Qed.

Lemma Fetch_body_eq file dst body w :
  Fetch_body sha256_Sum file dst body w =
  match gz_err body with
  | Some err => (Some (ErrGzipReader err), emit EvGzipNewReader w)
  | None =>
      let r := Fetch_extract sha256_Sum file dst (start_reader sha256_Sum body)
                             (emit EvGzipNewReader w) in
      (r.1.2,
       emit EvGzipClose
         (if negb r.1.1
          then mkWorld (os_RemoveAll (Path.Join [dst; "go"]) (fs r.2)).2
                       (log r.2 ++ [EvRemoveAll (Path.Join [dst; "go"])])
          else r.2))
  end.
Proof.
  unfold Fetch_body, gzip_NewReader, start_reader. cbn [fst snd].
  destruct (gz_err body); [done|].
  destruct (Fetch_extract _ _ _ _ _) as [[success err] w1]. cbn [fst snd].
  rewrite call_eq. by destruct success.
Qed.

Lemma Fetch_validated file dst w :
  validated file dst w ->
  Fetch http_Get sha256_Sum file dst w =
  match http_Get (url_of file) with
  | Err err => (Some (ErrDownloading err), downloading file dst w)
  | Ok resp =>
      if negb (StatusCode resp =? 200)%Z
      then (Some (ErrStatus (StatusCode resp) (Status resp)),
            emit EvBodyClose (downloading file dst w))
      else
        ((Fetch_body sha256_Sum file (dst_root dst) (Body resp)
                     (downloading file dst w)).1,
         emit EvBodyClose
           (Fetch_body sha256_Sum file (dst_root dst) (Body resp)
                       (downloading file dst w)).2)
  end.
Proof.
  intros (Hsuf & (fi & Hst & Hdir) & (e & Hgo)).
  unfold Fetch. rewrite Hsuf. cbn [negb fs emit]. rewrite Hst, Hdir. cbn [negb].
  rewrite Hgo. fold (url_of file) (dst_root dst).
  change (emit (EvHttpGet (url_of file)) _) with (downloading file dst w).
  destruct (http_Get (url_of file)) as [resp|err]; [|done].
  destruct (negb (StatusCode resp =? 200)%Z); [done|].
  by destruct (Fetch_body _ _ _ _ _).
Qed.

(** C9.  When [os.Stat] of the [go] subdirectory fails, with whatever
    error (a permission error as well as not-exists), [Fetch] is past its
    checks: it requests the file from the server next, and when the
    answer has status 200 and a gzip header it starts to read entries;
    what it returns is what the download and the extraction return. *)
Theorem Fetch_go_stat_error file dst w fi e :
  Strings.HasSuffix (Filename file) ".tar.gz" = true ->
  os_Stat dst (fs w) = Ok fi -> IsDir fi = true ->
  os_Stat (Path.Join [dst; "go"]) (fs w) = Err e ->
  (exists evs,
     log (Fetch http_Get sha256_Sum file dst w).2
     = log w ++ [EvStat dst; EvStat (Path.Join [dst; "go"]); EvHttpGet (url_of file)] ++ evs
     /\ forall resp, http_Get (url_of file) = Ok resp ->
          StatusCode resp = 200%Z -> gz_err (Body resp) = None ->
          (Fetch http_Get sha256_Sum file dst w).1
          = (Fetch_body sha256_Sum file (dst_root dst) (Body resp)
                        (downloading file dst w)).1
          /\ exists evs', evs = EvGzipNewReader :: EvTarNext :: evs').
Proof.
  intros Hsuf Hst Hdir Hgo.
  rewrite Fetch_validated by (split; [done|]; split; eauto).
  destruct (http_Get (url_of file)) as [resp|err].
  2:{ exists []. split; [log_eq|]. discriminate. }
  destruct (StatusCode resp =? 200)%Z eqn:Hcode; cbn [negb fst snd].
  2:{ exists [EvBodyClose]. split; [log_eq|].
      intros ? [= <-] Hc. rewrite Hc in Hcode. discriminate. }
  rewrite Fetch_body_eq.
  destruct (gz_err (Body resp)) as [gerr|] eqn:Hgz.
  { exists [EvGzipNewReader; EvBodyClose]. split; [log_eq|].
    intros ? [= <-] _ ?. congruence. }
  destruct (Fetch_extract sha256_Sum file (dst_root dst)
              (start_reader sha256_Sum (Body resp))
              (emit EvGzipNewReader (downloading file dst w)))
    as [[success err] w1] eqn:Hex.
  destruct (Fetch_extract_spec _ _ _ _ _ _ _ Hex) as (_ & evs & Hlog).
  cbn [fst snd]. simpl in Hlog.
  destruct success; cbn [negb].
  - exists (EvGzipNewReader :: EvTarNext :: evs ++ [EvGzipClose; EvBodyClose]).
    split; [simpl; rewrite Hlog; log_eq|].
    intros ? [= <-] _ _. rewrite Fetch_body_eq, Hgz, Hex. split; [done|]. by eexists.
  - exists (EvGzipNewReader :: EvTarNext
            :: evs ++ [EvRemoveAll (Path.Join [dst_root dst; "go"]);
                       EvGzipClose; EvBodyClose]).
    split; [simpl; rewrite Hlog; log_eq|].
    intros ? [= <-] _ _. rewrite Fetch_body_eq, Hgz, Hex. split; [done|]. by eexists.
Qed.

(** C4, amended.  When the file name does not end in [.tar.gz], or
    [os.Stat] of the destination fails (it does not exist, or otherwise),
    or the destination is not a directory, or [os.Stat] finds the [go]
    subdirectory, [Fetch] returns an error, the file system is as it was,
    and [Fetch] has called nothing but [os.Stat]: no request went to the
    server.  (A [go] subdirectory that [os.Stat] fails to see counts as
    absent.) *)
Theorem Fetch_invalid_no_effect file dst w :
  Strings.HasSuffix (Filename file) ".tar.gz" = false
  \/ (exists e, os_Stat dst (fs w) = Err e)
  \/ (exists fi, os_Stat dst (fs w) = Ok fi /\ IsDir fi = false)
  \/ (exists fi, os_Stat (Path.Join [dst; "go"]) (fs w) = Ok fi) ->
  exists err evs,
    (Fetch http_Get sha256_Sum file dst w).1 = Some err
    /\ fs (Fetch http_Get sha256_Sum file dst w).2 = fs w
    /\ log (Fetch http_Get sha256_Sum file dst w).2 = log w ++ evs
    /\ Forall is_stat evs.
Proof.
  intros Hbad. unfold Fetch.
  assert (Hdone : forall (err : error) (evs : list event) (w' : World S),
             fs w' = fs w -> log w' = log w ++ evs -> Forall is_stat evs ->
             exists err0 evs0,
               (Some err, w').1 = Some err0 /\ fs (Some err, w').2 = fs w
               /\ log (Some err, w').2 = log w ++ evs0 /\ Forall is_stat evs0).
  { intros err evs w' ? ? ?. by exists err, evs. }
  destruct (Strings.HasSuffix (Filename file) ".tar.gz") eqn:Hsuf; cbn [negb].
  2:{ apply (Hdone _ []); [done | log_eq | done]. }
  cbn [fs emit].
  destruct (os_Stat dst (fs w)) as [fi|e] eqn:Hst.
  2:{ destruct (os_IsNotExist e); apply (Hdone _ [EvStat dst]);
        try done; repeat constructor; by eexists. }
  destruct (IsDir fi) eqn:Hdir; cbn [negb].
  2:{ apply (Hdone _ [EvStat dst]); try done. repeat constructor; by eexists. }
  destruct (os_Stat (Path.Join [dst; "go"]) (fs w)) as [fi'|e] eqn:Hgo.
  { apply (Hdone _ [EvStat dst; EvStat (Path.Join [dst; "go"])]);
      [done | log_eq |]. repeat constructor; by eexists. }
  exfalso. destruct Hbad as [H1|[[e' H2]|[(fi' & H3 & H3')|[fi' H4]]]]; congruence.
Qed.


(** C3, amended.  When the checks pass, the server answers 200 with a
    gzip header and the loop over the entries ends without error, [Fetch]
    formats the digest of the bytes read as lower-case hexadecimal text
    and compares it with [file.Sha256] as strings, letter case included:
    it returns [nil] exactly when the two strings are equal, and the
    checksum-mismatch error otherwise. *)
Theorem Fetch_digest_compared file dst w resp tr' w' :
  validated file dst w ->
  http_Get (url_of file) = Ok resp ->
  StatusCode resp = 200%Z ->
  gz_err (Body resp) = None ->
  extract sha256_Sum (Datatypes.S (length (items (Body resp)))) (dst_root dst)
          (start_reader sha256_Sum (Body resp))
          (emit EvGzipNewReader (downloading file dst w))
  = Some (None, tr', w') ->
  let sum := fmt.hex_bytes (sha256_Sum (hr_h (tr_hr tr'))) in
  (Fetch http_Get sha256_Sum file dst w).1
  = (if String.eqb sum (Sha256 file) then None
     else Some (ErrChecksum (fmt.hex_string sum) (Sha256 file)))
  /\ ((Fetch http_Get sha256_Sum file dst w).1 = None <-> sum = Sha256 file).
Proof.
  intros Hval Hget Hcode Hgz Hex sum.
  rewrite Fetch_validated, Hget, Hcode by done. cbn [Z.eqb Pos.eqb negb fst].
  rewrite Fetch_body_eq, Hgz. cbn [fst snd].
  unfold Fetch_extract.
  change (tr_items (start_reader sha256_Sum (Body resp))) with (items (Body resp)).
  rewrite Hex. cbn [hash_Sum sha256_New]. fold sum.
  destruct (String.eqb sum (Sha256 file)) eqn:E; cbn [negb fst snd].
  - apply String.eqb_eq in E. by split.
  - apply String.eqb_neq in E. split; [done|]. split; [discriminate|done].
Qed.


End Fetch_props.

(* ===================================================================== *)
(** ** Runs on the file system in memory *)
(* ===================================================================== *)

Import Run.

(** [Fetch] of the good archive: the tree is there, with the file's
    content and mode. *)
Example fetch_good :
  let r := fetch good_body good_sha256 w0 in
  r.1 = None
  /\ MemFS.nodes (fs r.2) !! "tmp/go" = Some (MemFS.Dir 493)
  /\ MemFS.nodes (fs r.2) !! "tmp/go/VERSION" = Some (MemFS.Reg 420 (bytes_of "go1.21.0")).
Proof. vm_compute. repeat split. Qed.

(** The symbolic link of the scenario of the spec, [go/bin/go] pointing to
    [../pkg/tool/go], does not pass [dstName]: the target is joined to the
    destination, not to the directory of the link. *)
Example dstName_relative_link :
  dstName "tmp/" (Linkname hdr_symlink_rel)
  = Err (ErrBadPath "../pkg/tool/go" "pkg/tool/go" "tmp/").
Proof. reflexivity. Qed.

(** An entry that climbs out of the destination is refused. *)
Example dstName_escape :
  dstName "tmp/" (Name hdr_escape)
  = Err (ErrBadPath "../../etc/passwd" "../etc/passwd" "tmp/").
Proof. reflexivity. Qed.

(** In the current directory, and in the root directory, no entry passes. *)
Example dstName_dot : dst_root "." = "./" /\ dstName "./" "go/VERSION"
                      = Err (ErrBadPath "go/VERSION" "go/VERSION" "./").
Proof. split; reflexivity. Qed.
Example dstName_slash : dst_root "/" = "//" /\ dstName "//" "go/VERSION"
                        = Err (ErrBadPath "go/VERSION" "/go/VERSION" "//").
Proof. split; reflexivity. Qed.

(** C1, as stated, fails: the entry [evil/] resolves to [tmp/evil], which
    is not below [tmp/go/], the extraction root of the claim; it passes
    the check all the same, and the directory is made. *)
Lemma entry_outside_go_accepted :
  dstName (dst_root "tmp") (Name hdr_evil) = Ok "tmp/evil"
  /\ Strings.HasPrefix "tmp/evil" (Path.Join [dst_root "tmp"; "go"] +:+ "/") = false
  /\ let r := store SHA256.Sum (dst_root "tmp") tr0 hdr_evil "tmp/evil" w0 in
     r.1.1 = None
     /\ log r.2 = [EvMkdirAll "tmp" 511; EvMkdir "tmp/evil" 511]
     /\ MemFS.nodes (fs w0) !! "tmp/evil" = None
     /\ MemFS.nodes (fs r.2) !! "tmp/evil" = Some (MemFS.Dir 493).
Proof. vm_compute. repeat split. Qed.


(** C3, as stated, fails: the digest of the archive and the expected
    digest are equal up to letter case, and [Fetch] fails with the
    checksum-mismatch error (and removes the tree). *)
Lemma uppercase_digest_rejected :
  let r := fetch good_body good_sha256_upper w0 in
  Strings.EqualFold (fmt.hex_bytes (SHA256.Sum good_gz)) good_sha256_upper = true
  /\ r.1 = Some (ErrChecksum (fmt.hex_string good_sha256) good_sha256_upper)
  /\ MemFS.nodes (fs r.2) !! "tmp/go" = None.
Proof. vm_compute. repeat split. Qed.

(** C4, as stated, fails: the destination [tmp] holds the directory [go]
    but cannot be searched; [os.Stat] of [tmp/go] fails, and [Fetch] sends
    its request to the server and starts on the entries. *)
Lemma go_present_request_made :
  let r := fetch good_body good_sha256 w_noperm in
  MemFS.nodes (fs w_noperm) !! "tmp" = Some (MemFS.Dir 384)
  /\ MemFS.nodes (fs w_noperm) !! "tmp/go" = Some (MemFS.Dir 493)
  /\ r.1 = Some (EOS EACCES)
  /\ log r.2 = [EvStat "tmp"; EvStat "tmp/go";
                EvHttpGet "https://golang.org/dl/go1.21.0.linux-amd64.tar.gz";
                EvGzipNewReader; EvTarNext; EvMkdirAll "tmp" 511; EvMkdir "tmp/go" 511;
                EvRemoveAll "tmp/go"; EvGzipClose; EvBodyClose].
Proof. vm_compute. repeat split. Qed.

(** C6, as stated, fails: for a global header, [store] returns [nil] and
    has made two directories. *)
Lemma global_header_makes_directories :
  let r := store SHA256.Sum "tmp/" tr0 hdr_pax "tmp/go/sub/pax_global_header" w0 in
  Typeflag hdr_pax = tar.TypeXGlobalHeader
  /\ r.1.1 = None
  /\ log r.2 = [EvMkdirAll "tmp/go/sub" 511]
  /\ is_mutation (EvMkdirAll "tmp/go/sub" 511) = true
  /\ MemFS.nodes (fs w0) !! "tmp/go" = None
  /\ MemFS.nodes (fs r.2) !! "tmp/go" = Some (MemFS.Dir 493)
  /\ MemFS.nodes (fs r.2) !! "tmp/go/sub" = Some (MemFS.Dir 493).
Proof. vm_compute. repeat split. Qed.

(** C7, as stated, fails: the header of [evil/] declares mode 0700; the
    directory is made with [Mkdir(name, 0777)] and, the umask being 0, has
    mode 0777. *)
Lemma directory_mode_not_from_header :
  let r := store SHA256.Sum "tmp/" tr0 hdr_evil "tmp/evil" w_umask0 in
  Typeflag hdr_evil = tar.TypeDir
  /\ Mode hdr_evil = 448%Z
  /\ r.1.1 = None
  /\ log r.2 = [EvMkdirAll "tmp" 511; EvMkdir "tmp/evil" 511]
  /\ MemFS.nodes (fs r.2) !! "tmp/evil" = Some (MemFS.Dir 511).
Proof. vm_compute. repeat split. Qed.

(* ===================================================================== *)
(** ** The theorems at work *)
(* ===================================================================== *)

(** A hard link whose target leaves the destination: the entry's own name
    passes, the link name is refused after [MkdirAll], no link is made. *)
Lemma entry_paths_checked_witness :
  tar_Next SHA256.Sum (tr_before hdr_hardlink_out)
  = (Ok hdr_hardlink_out, (tar_Next SHA256.Sum (tr_before hdr_hardlink_out)).2)
  /\ exists err tr2 w2 evs,
      store SHA256.Sum "tmp/" (tar_Next SHA256.Sum (tr_before hdr_hardlink_out)).2
            hdr_hardlink_out "tmp/go/passwd" (emit EvTarNext w0) = (err, tr2, w2)
      /\ log w2 = log w0 ++ EvTarNext :: EvMkdirAll (Path.Dir "tmp/go/passwd") 511 :: evs
      /\ err = Some (ErrBadPath "../etc/passwd" "etc/passwd" "tmp/")
      /\ evs = [].
Proof.
  split; [reflexivity|].
  pose proof (entry_paths_checked SHA256.Sum 0 "tmp/" (tr_before hdr_hardlink_out) w0
                hdr_hardlink_out _ eq_refl) as H.
  assert (Hd : dstName "tmp/" (Name hdr_hardlink_out) = Ok "tmp/go/passwd") by reflexivity.
  rewrite Hd in H.
  destruct H as (_ & err & tr2 & w2 & evs & Hst & _ & Hlog & _ & Hlink).
  exists err, tr2, w2, evs. split; [exact Hst|]. split; [exact Hlog|].
  apply Hlink; [left; reflexivity | reflexivity].
Defined.


(** The good archive with its digest in lower case: [Fetch] succeeds. *)
Lemma Fetch_digest_compared_witness :
  validated (file_of good_sha256) "tmp" w0
  /\ exists tr' w',
      extract SHA256.Sum 3 (dst_root "tmp") (start_reader SHA256.Sum good_body)
              (emit EvGzipNewReader (downloading (file_of good_sha256) "tmp" w0))
      = Some (None, tr', w')
      /\ ((fetch good_body good_sha256 w0).1 = None
          <-> fmt.hex_bytes (SHA256.Sum (hr_h (tr_hr tr'))) = good_sha256).
Proof.
  assert (Hval : validated (file_of good_sha256) "tmp" w0).
  { split; [reflexivity|]. split.
    - exists (mkFileInfo true). split; reflexivity.
    - exists (EOS ENOENT). reflexivity. }
  split; [exact Hval|].
  destruct (extract SHA256.Sum 3 (dst_root "tmp") (start_reader SHA256.Sum good_body)
              (emit EvGzipNewReader (downloading (file_of good_sha256) "tmp" w0)))
    as [[[r tr'] w']|] eqn:Hex.
  2:{ apply (f_equal (fun o => match o with Some _ => true | None => false end)) in Hex.
      vm_compute in Hex. discriminate. }
  assert (Hr : r = None).
  { apply (f_equal (fun o => match o with Some (r, _, _) => r | None => None end)) in Hex.
    vm_compute in Hex. congruence. }
  subst r. exists tr', w'. split; [reflexivity|].
  exact (proj2 (Fetch_digest_compared (serve good_body) SHA256.Sum (file_of good_sha256)
                  "tmp" w0 (mkResponse 200 "200 OK" good_body) tr' w'
                  Hval eq_refl eq_refl eq_refl Hex)).
Defined.

(** The destination holds [go] already: an error, and two calls of
    [os.Stat]. *)
Lemma Fetch_invalid_no_effect_witness :
  (exists fi, os_Stat (Path.Join ["tmp"; "go"]) (fs w_go) = Ok fi)
  /\ exists err evs,
      (fetch good_body good_sha256 w_go).1 = Some err
      /\ fs (fetch good_body good_sha256 w_go).2 = fs w_go
      /\ log (fetch good_body good_sha256 w_go).2 = log w_go ++ evs
      /\ Forall is_stat evs.
Proof.
  assert (H : exists fi, os_Stat (Path.Join ["tmp"; "go"]) (fs w_go) = Ok fi).
  { exists (mkFileInfo true). reflexivity. }
  split; [exact H|].
  apply (Fetch_invalid_no_effect (serve good_body) SHA256.Sum (file_of good_sha256)
           "tmp" w_go).
  right; right; right. exact H.
Defined.


(** A global header is skipped, a named pipe is refused, both after
    [MkdirAll]. *)
Lemma store_skipped_or_unsupported_witness :
  store SHA256.Sum "tmp/" tr0 hdr_pax "tmp/go/sub/pax_global_header" w0
  = (None, tr0, after_MkdirAll "tmp/go/sub/pax_global_header" w0)
  /\ store SHA256.Sum "tmp/" tr0 hdr_fifo "tmp/go/fifo" w0
     = (Some (ErrTypeflag "6"), tr0, after_MkdirAll "tmp/go/fifo" w0).
Proof.
  split.
  - apply (store_skipped_or_unsupported SHA256.Sum "tmp/" tr0 hdr_pax
             "tmp/go/sub/pax_global_header" w0); discriminate.
  - apply (store_skipped_or_unsupported SHA256.Sum "tmp/" tr0 hdr_fifo
             "tmp/go/fifo" w0); discriminate.
Defined.

(** The directory [evil/], declared with mode 0700, is made with 0777. *)
Lemma store_directory_witness :
  Typeflag hdr_evil = tar.TypeDir
  /\ log (store SHA256.Sum "tmp/" tr0 hdr_evil "tmp/evil" w0).2
     = log w0 ++ [EvMkdirAll (Path.Dir "tmp/evil") 511; EvMkdir "tmp/evil" 511].
Proof.
  split; [reflexivity|].
  by rewrite (store_directory SHA256.Sum "tmp/" tr0 hdr_evil "tmp/evil" w0 eq_refl).
Defined.

(** [tmp] cannot be searched: [os.Stat] of [tmp/go] fails with a
    permission error, and [Fetch] goes on to the download and the entries. *)
Lemma Fetch_go_stat_error_witness :
  os_Stat (Path.Join ["tmp"; "go"]) (fs w_noperm) = Err (EOS EACCES)
  /\ os_IsNotExist (EOS EACCES) = false
  /\ exists evs,
      log (fetch good_body good_sha256 w_noperm).2
      = log w_noperm ++ [EvStat "tmp"; EvStat (Path.Join ["tmp"; "go"]);
                         EvHttpGet (url_of (file_of good_sha256))] ++ evs
      /\ exists evs', evs = EvGzipNewReader :: EvTarNext :: evs'.
Proof.
  assert (Hdst : os_Stat "tmp" (fs w_noperm) = Ok (mkFileInfo true)) by reflexivity.
  assert (Hgo : os_Stat (Path.Join ["tmp"; "go"]) (fs w_noperm) = Err (EOS EACCES))
    by reflexivity.
  split; [exact Hgo|]. split; [reflexivity|].
  destruct (Fetch_go_stat_error (serve good_body) SHA256.Sum (file_of good_sha256)
              "tmp" w_noperm (mkFileInfo true) (EOS EACCES)
              eq_refl Hdst eq_refl Hgo) as (evs & Hlog & Hnext).
  exists evs. split; [exact Hlog|].
  destruct (Hnext (mkResponse 200 "200 OK" good_body) eq_refl eq_refl eq_refl)
    as [_ Hevs].
  exact Hevs.
Defined.


(** In memory, the link holds that path; with a rooted destination the
    path is absolute. *)
Example symlink_in_memory :
  let r := store SHA256.Sum "tmp/" tr0 hdr_symlink "tmp/go/bin/go" w0 in
  r.1.1 = None
  /\ MemFS.nodes (fs r.2) !! "tmp/go/bin/go" = Some (MemFS.Symlink "tmp/go/pkg/tool/go")
  /\ dstName (dst_root "/usr/local") (Linkname hdr_symlink) = Ok "/usr/local/go/pkg/tool/go".
Proof. vm_compute. repeat split. Qed.

(* ===================================================================== *)
(** * More on [store] *)
(* ===================================================================== *)

Section store_more.
Context {S F : Type} `{!OS S F}.
Variable sha256_Sum : list byte -> list byte.

Implicit Types (tr : tarReader sha256_Sum) (w : World S) (h : Header).

Local Arguments io.LimitedReader_Read : simpl never.
Local Arguments tar_Read : simpl never.
Local Arguments copy_fuel : simpl never.
Local Arguments io.copy_size : simpl never.

(** X1.  For a hard-link entry whose link name passes [dstName], [store]
    calls [os.Link(linkname, name)]: the existing file is the path
    [dstName] made of the link name, under [dst], the new link is the
    target of the entry.  It is the only call after [MkdirAll], the tar
    reader is not read, and the error of [os.Link] is what [store]
    returns. *)
Theorem store_hard_link dst tr h name w linkname :
  Typeflag h = tar.TypeLink ->
  dstName dst (Linkname h) = Ok linkname ->
  store sha256_Sum dst tr h name w =
    ((os_Link linkname name (fs (after_MkdirAll name w))).1, tr,
     mkWorld (os_Link linkname name (fs (after_MkdirAll name w))).2
             (log w ++ [EvMkdirAll (Path.Dir name) 511; EvLink linkname name]))
  /\ linkname = Path.Clean (Path.Join [dst; Linkname h])
  /\ under dst linkname.
Proof.
  intros Hty Hd. split.
  - unfold store. rewrite call_MkdirAll, Hty. flag_eval. cbv iota.
    rewrite Hd, call_eq. cbn [fst snd log after_MkdirAll]. by rewrite <- app_assoc.
  - by apply dstName_Ok in Hd.
Qed.

Lemma tar_Read_content len tr :
  rd_bytes (tar_Read sha256_Sum len tr).1 ++ pending_data (tar_Read sha256_Sum len tr).2
  = pending_data tr.
Proof.
  unfold tar_Read, pending_data.
  destruct (tr_cur tr) as [|t rest] eqn:E; simpl; [by rewrite E|].
  destruct (length (t_bytes t) <=? len)%nat; simpl; [done|].
  by rewrite app_assoc, take_drop.
Qed.

Lemma limited_Read_content size tr N :
  let out := io.LimitedReader_Read (tar_Read sha256_Sum) size (tr, N) in
  rd_bytes out.1 ++ pending_data out.2.1 = pending_data tr.
Proof.
  unfold io.LimitedReader_Read.
  destruct (N <=? 0)%Z; simpl; [done|].
  set (len' := if (N <? Z.of_nat size)%Z then Z.to_nat N else size).
  pose proof (tar_Read_content len' tr) as Hc.
  by destruct (tar_Read sha256_Sum len' tr) as [res tr1].
Qed.

(** The bytes [io.Copy] hands to [Write], followed by the data left in the
    tar reader, are the data the entry had; the count returned is at most
    the number of bytes handed over. *)
Lemma io_Copy_content (f : F) name tr N w n err tr' w' :
  io_Copy sha256_Sum f name (tr, N) w = ((n, err), tr', w') ->
  exists evs, log w' = log w ++ evs
    /\ written_bytes evs ++ pending_data tr' = pending_data tr
    /\ (n <= Z.of_nat (length (written_bytes evs)))%Z.
Proof.
  unfold io_Copy.
  destruct (copyBuffer_tar_enough sha256_Sum f name tr N w)
    as [[[[n0 e0] [tr0 N0]] w0] Hc].
  cbn [fst snd]. rewrite Hc. intros Heq. inversion Heq; subst; clear Heq.
  pose (I := fun (written : Z) (lr : tarReader sha256_Sum * Z) (w1 : World S) =>
    exists evs, log w1 = log w ++ evs
      /\ written_bytes evs ++ pending_data lr.1 = pending_data tr
      /\ (written <= Z.of_nat (length (written_bytes evs)))%Z).
  assert (HI : I n (tr', N0) w').
  { eapply (copyBuffer_inv _ _ I); [| | exact Hc].
    - clear. intros written [tr1 N1] w1 (evs & Hlog & Hdata & Hn).
      destruct (copy_round_cases (io.LimitedReader_Read (tar_Read sha256_Sum))
                  (File_Write f name) (io.copy_size N) written (tr1, N1) w1)
        as (wr & w2 & stop & Heq & _ & Hcase).
      rewrite Heq. simpl.
      pose proof (limited_Read_content (io.copy_size N) tr1 N1) as Hcont.
      simpl in Hcont.
      destruct (io.LimitedReader_Read (tar_Read sha256_Sum) (io.copy_size N) (tr1, N1))
        as [res [tr2 N2]]; simpl in *.
      unfold I; cbn [fst snd].
      destruct Hcase as [(Hb0 & -> & ->) | (Hne & -> & Hwr)].
      + exists evs. rewrite Hb0 in Hcont. simpl in Hcont.
        repeat split; [done | congruence | done].
      + exists (evs ++ [EvWrite name (rd_bytes res)]).
        unfold File_Write. rewrite call_eq. simpl.
        split; [by rewrite Hlog, app_assoc|].
        unfold written_bytes in *. rewrite map_app, concat_app, length_app. simpl.
        rewrite app_nil_r. split; [|lia].
        by rewrite <- app_assoc, Hcont.
    - exists []. rewrite app_nil_r. repeat split; simpl; lia. }
  destruct HI as (evs & Hlog & Hdata & Hn). by exists evs.
Qed.

(** X2.  When [store] succeeds on a regular-file entry, the size in the
    header is not negative and the calls after [MkdirAll] are: [Create],
    then writes whose bytes, put together, are exactly the first [h.Size]
    bytes of the data of the entry, then [Chmod] and [Close]. *)
Theorem store_regular_content dst tr h name w tr' w' :
  Typeflag h = tar.TypeReg ->
  store sha256_Sum dst tr h name w = (None, tr', w') ->
  (0 <= Size h)%Z
  /\ exists evs,
      log w' = log w ++ [EvMkdirAll (Path.Dir name) 511; EvCreate name] ++ evs
                     ++ [EvChmod name (Mode h mod 512)%Z; EvClose name]
      /\ Forall (is_write name) evs
      /\ written_bytes evs = take (Z.to_nat (Size h)) (pending_data tr).
Proof.
  intros Hty. unfold store. rewrite Hty, Ascii.eqb_refl, call_MkdirAll, call_eq.
  destruct (os_Create name (fs (after_MkdirAll name w))) as [[f|e] s2]; cbn [fst snd];
    [|discriminate].
  destruct (io_Copy sha256_Sum f name (tr, Size h) _) as [[[n cerr] tr3] w3] eqn:Hcopy.
  destruct (io_Copy_spec _ _ _ _ _ _ _ _ _ _ Hcopy) as (_ & evs & Hlog & Hev & Hn & Hb).
  destruct (io_Copy_content _ _ _ _ _ _ _ _ _ Hcopy) as (evs' & Hlog' & Hdata & Hle).
  assert (evs' = evs) as -> by (rewrite Hlog in Hlog'; by apply app_inv_head in Hlog').
  simpl in Hlog. rewrite FileMode_ModePerm.
  destruct cerr as [e|]; [discriminate|].
  destruct (n =? Size h)%Z eqn:En; cbn [negb]; [|discriminate].
  apply Z.eqb_eq in En.
  rewrite (call_eq (EvChmod _ _)). cbn [fst snd].
  destruct (file_Chmod f (Mode h mod 512)%Z (fs w3)) as [[e|] s4]; cbn [fst snd];
    [discriminate|].
  rewrite (call_eq (EvClose _)). cbn [fst snd log fs].
  destruct (file_Close f s4) as [[e|] s5]; cbn [fst snd]; [discriminate|].
  intros [= <- <-]. split; [lia|]. exists evs.
  split; [simpl; rewrite Hlog; log_eq|]. split; [done|].
  assert (Hlen : length (written_bytes evs) = Z.to_nat (Size h)) by lia.
  rewrite <- Hdata, <- Hlen. by rewrite take_app_length.
Qed.

(** X3.  For a regular-file entry, [store] closes the file whenever
    [os.Create] gave one: whatever happens afterwards, [Close] on it is
    the last call [store] makes.  When [os.Create] fails, [store] returns
    that error as it is and makes no further call. *)
Theorem store_closes_file dst tr h name w :
  Typeflag h = tar.TypeReg ->
  match (os_Create name (fs (after_MkdirAll name w))).1 with
  | Ok _ =>
      exists evs,
        log (store sha256_Sum dst tr h name w).2
        = log w ++ [EvMkdirAll (Path.Dir name) 511; EvCreate name] ++ evs ++ [EvClose name]
  | Err e =>
      store sha256_Sum dst tr h name w
      = (Some e, tr,
         mkWorld (os_Create name (fs (after_MkdirAll name w))).2
                 (log w ++ [EvMkdirAll (Path.Dir name) 511; EvCreate name]))
  end.
Proof.
  intros Hty. unfold store. rewrite Hty, Ascii.eqb_refl, call_MkdirAll, call_eq.
  destruct (os_Create name (fs (after_MkdirAll name w))) as [[f|e] s2]; cbn [fst snd].
  2:{ f_equal. f_equal. simpl. log_eq. }
  destruct (io_Copy sha256_Sum f name (tr, Size h) _) as [[[n cerr] tr3] w3] eqn:Hcopy.
  destruct (io_Copy_spec _ _ _ _ _ _ _ _ _ _ Hcopy) as (_ & evs & Hlog & _).
  simpl in Hlog.
  destruct cerr as [e|].
  { exists evs. rewrite call_eq. simpl. rewrite Hlog. log_eq. }
  destruct (negb (n =? Size h)%Z).
  { exists evs. rewrite call_eq. simpl. rewrite Hlog. log_eq. }
  rewrite (call_eq (EvChmod _ _)). cbn [fst snd].
  destruct (file_Chmod f _ (fs w3)) as [[e|] s4]; cbn [fst snd].
  { exists (evs ++ [EvChmod name (Z.land (os_FileMode (Mode h)) os_ModePerm)]).
    rewrite call_eq. simpl. rewrite Hlog. log_eq. }
  rewrite (call_eq (EvClose _)). cbn [fst snd log fs].
  destruct (file_Close f s4) as [[e|] s5]; cbn [fst snd].
  { exists (evs ++ [EvChmod name (Z.land (os_FileMode (Mode h)) os_ModePerm); EvClose name]).
    rewrite call_eq. simpl. rewrite Hlog. log_eq. }
  exists (evs ++ [EvChmod name (Z.land (os_FileMode (Mode h)) os_ModePerm)]).
  simpl. rewrite Hlog. log_eq.
Qed.

Lemma closes_app evs1 evs2 : closes (evs1 ++ evs2) = (closes evs1 + closes evs2)%nat.
Proof. unfold closes. by rewrite List.filter_app, length_app. Qed.

Lemma closes_writes name evs : Forall (is_write name) evs -> closes evs = 0%nat.
Proof.
  induction 1 as [|e evs [b ->] _ IH]; [done|]. exact IH.
Qed.

(** X10.  For a regular-file entry whose file [os.Create] gave, [store]
    calls [Close] on the file once, with one exception: when the [Close]
    that follows [Chmod] fails, the deferred function finds the file
    still set and closes it a second time. *)
Theorem store_close_twice dst tr h name w f :
  Typeflag h = tar.TypeReg ->
  (os_Create name (fs (after_MkdirAll name w))).1 = Ok f ->
  exists evs,
    log (store sha256_Sum dst tr h name w).2
    = log w ++ [EvMkdirAll (Path.Dir name) 511; EvCreate name] ++ evs
    /\ closes evs = match (store sha256_Sum dst tr h name w).1.1 with
                    | Some (ErrClose _) => 2%nat
                    | _ => 1%nat
                    end.
Proof.
  intros Hty HC. unfold store. rewrite Hty, Ascii.eqb_refl, call_MkdirAll, call_eq.
  destruct (os_Create name (fs (after_MkdirAll name w))) as [[f'|e] s2];
    cbn [fst snd] in *; [|done].
  clear HC.
  destruct (io_Copy sha256_Sum f' name (tr, Size h) _) as [[[n cerr] tr3] w3] eqn:Hcopy.
  destruct (io_Copy_spec _ _ _ _ _ _ _ _ _ _ Hcopy) as (_ & evs & Hlog & Hwr & _).
  simpl in Hlog. apply closes_writes in Hwr.
  destruct cerr as [e|].
  { exists (evs ++ [EvClose name]). rewrite call_eq, closes_app, Hwr. simpl.
    split; [rewrite Hlog; log_eq | done]. }
  destruct (negb (n =? Size h)%Z).
  { exists (evs ++ [EvClose name]). rewrite call_eq, closes_app, Hwr. simpl.
    split; [rewrite Hlog; log_eq | done]. }
  rewrite (call_eq (EvChmod _ _)). cbn [fst snd].
  destruct (file_Chmod f' _ (fs w3)) as [[e|] s4]; cbn [fst snd].
  { exists (evs ++ [EvChmod name (Z.land (os_FileMode (Mode h)) os_ModePerm); EvClose name]).
    rewrite call_eq, closes_app, Hwr. simpl.
    split; [rewrite Hlog; log_eq | done]. }
  rewrite (call_eq (EvClose _)). cbn [fst snd log fs].
  destruct (file_Close f' s4) as [[e|] s5]; cbn [fst snd].
  { exists (evs ++ [EvChmod name (Z.land (os_FileMode (Mode h)) os_ModePerm);
                    EvClose name; EvClose name]).
    rewrite call_eq, closes_app, Hwr. simpl.
    split; [rewrite Hlog; log_eq | done]. }
  exists (evs ++ [EvChmod name (Z.land (os_FileMode (Mode h)) os_ModePerm); EvClose name]).
  rewrite closes_app, Hwr. simpl.
  split; [rewrite Hlog; log_eq | done].
Qed.

End store_more.

(* ===================================================================== *)
(** * More on [Fetch] *)
(* ===================================================================== *)

Section Fetch_more.
Context {S F : Type} `{!OS S F}.
Variable http_Get : string -> result Response.
Variable sha256_Sum : list byte -> list byte.

Implicit Types (tr : tarReader sha256_Sum) (w : World S) (h : Header).

Local Arguments io.LimitedReader_Read : simpl never.
Local Arguments tar_Read : simpl never.
Local Arguments copy_fuel : simpl never.
Local Arguments io.copy_size : simpl never.

(** *** What [store] and the loop call *)

Lemma entry_event_loop dst name e :
  under dst name -> entry_event dst name e -> loop_event dst e.
Proof.
  intros Hn. destruct e; simpl; try done; try (by intros ->).
  - intros [-> [raw Hd]]. apply dstName_Ok in Hd as [_ Hl]. by split.
  - intros [-> [raw Hd]]. apply dstName_Ok in Hd as [_ Hl]. by split.
Qed.

Lemma entry_event_no_mkdirall dst name evs :
  Forall (entry_event dst name) evs -> mkdirall_paths evs = [].
Proof.
  induction 1 as [|e evs He _ IH]; [done|].
  unfold mkdirall_paths in *. simpl. rewrite IH. by destruct e.
Qed.

Lemma mkdirall_paths_app evs1 evs2 :
  mkdirall_paths (evs1 ++ evs2) = mkdirall_paths evs1 ++ mkdirall_paths evs2.
Proof. unfold mkdirall_paths. by rewrite flat_map_app. Qed.

Lemma store_events dst tr h name w err tr' w' :
  under dst name ->
  store sha256_Sum dst tr h name w = (err, tr', w') ->
  exists evs, log w' = log w ++ evs
    /\ Forall (loop_event dst) evs
    /\ mkdirall_paths evs = [Path.Dir name].
Proof.
  intros Hn Hst. apply store_log in Hst as (_ & evs & Hlog & Hev).
  exists (EvMkdirAll (Path.Dir name) 511 :: evs). split; [done|]. split.
  - constructor; [by exists name|].
    eapply Forall_impl; [exact Hev|]. intros e. by apply entry_event_loop.
  - change (mkdirall_paths (EvMkdirAll (Path.Dir name) 511 :: evs))
      with (Path.Dir name :: mkdirall_paths evs).
    by rewrite (entry_event_no_mkdirall dst name).
Qed.

Lemma tar_Read_end len tr :
  tr_end_err (tar_Read sha256_Sum len tr).2 = tr_end_err tr.
Proof.
  unfold tar_Read. destruct (tr_cur tr) as [|t rest]; simpl; [done|].
  by destruct (length (t_bytes t) <=? len)%nat.
Qed.

Lemma io_Copy_end (f : F) name tr N w n err tr' w' :
  io_Copy sha256_Sum f name (tr, N) w = ((n, err), tr', w') ->
  tr_end_err tr' = tr_end_err tr.
Proof.
  unfold io_Copy.
  destruct (copyBuffer_tar_enough sha256_Sum f name tr N w)
    as [[[[n0 e0] [tr0 N0]] w0] Hc].
  cbn [fst snd]. rewrite Hc. intros Heq. inversion Heq; subst; clear Heq.
  change (tr_end_err (tr', N0).1 = tr_end_err tr).
  eapply (copyBuffer_inv _ _
            (fun (_ : Z) (lr : tarReader sha256_Sum * Z) (_ : World S) =>
               tr_end_err lr.1 = tr_end_err tr)); [| | exact Hc]; [|done].
  clear. intros written [tr1 N1] w1 Hend.
  destruct (copy_round_cases (io.LimitedReader_Read (tar_Read sha256_Sum))
              (File_Write f name) (io.copy_size N) written (tr1, N1) w1)
    as (wr & w2 & stop & Heq & _ & _).
  rewrite Heq. cbn [fst snd] in *. rewrite <- Hend.
  unfold io.LimitedReader_Read. destruct (N1 <=? 0)%Z; [done|].
  match goal with |- context [tar_Read sha256_Sum ?l tr1] =>
    pose proof (tar_Read_end l tr1) as He;
    destruct (tar_Read sha256_Sum l tr1) as [res tr2] end.
  done.
Qed.

Lemma store_end dst tr h name w err tr' w' :
  store sha256_Sum dst tr h name w = (err, tr', w') ->
  tr_end_err tr' = tr_end_err tr.
Proof.
  unfold store. rewrite call_MkdirAll.
  destruct (Ascii.eqb (Typeflag h) tar.TypeReg).
  { rewrite call_eq.
    destruct (os_Create name (fs (after_MkdirAll name w))) as [[f|e] s2]; cbn [fst snd];
      [|by intros [= <- <- <-]].
    destruct (io_Copy sha256_Sum f name (tr, Size h) _) as [[[n cerr] tr3] w3] eqn:Hcopy.
    apply io_Copy_end in Hcopy.
    destruct cerr; [by intros [= <- <- <-]|].
    destruct (negb _); [by intros [= <- <- <-]|].
    destruct (call (EvChmod _ _) _ _) as [[e|] w4]; [by intros [= <- <- <-]|].
    destruct (call (EvClose _) _ _) as [[e|] w5]; by intros [= <- <- <-]. }
  destruct (Ascii.eqb (Typeflag h) tar.TypeLink).
  { destruct (dstName dst (Linkname h)); [|by intros [= <- <- <-]].
    destruct (call _ _ _). by intros [= <- <- <-]. }
  destruct (Ascii.eqb (Typeflag h) tar.TypeSymlink).
  { destruct (dstName dst (Linkname h)); [|by intros [= <- <- <-]].
    destruct (call _ _ _). by intros [= <- <- <-]. }
  destruct (Ascii.eqb (Typeflag h) tar.TypeDir).
  { destruct (call _ _ _). by intros [= <- <- <-]. }
  destruct (_ || _); by intros [= <- <- <-].
Qed.

Lemma is_EOF_eq e : is_EOF e = true -> e = io_EOF.
Proof. by destruct e. Qed.

(** What the loop calls, and what its success says of the archive. *)
Lemma extract_events fuel dst tr w r tr' w' :
  extract sha256_Sum fuel dst tr w = Some (r, tr', w') ->
  exists evs, log w' = log w ++ evs
    /\ Forall (loop_event dst) evs
    /\ (r = None ->
        tr_end_err tr = io_EOF
        /\ Forall (fun it => under dst (target dst it)) (tr_items tr)
        /\ mkdirall_paths evs
           = map (fun it => Path.Dir (target dst it)) (tr_items tr)).
Proof.
  revert tr w. induction fuel as [|fuel IH]; intros tr w; [done|].
  simpl. pose proof (tar_Next_items sha256_Sum tr) as HN.
  assert (Hend : tr_end_err (tar_Next sha256_Sum tr).2 = tr_end_err tr).
  { unfold tar_Next. by destruct (tr_items tr). }
  destruct (tar_Next sha256_Sum tr) as [[h|e] tr1]; simpl in HN, Hend.
  - destruct HN as (it & Hit & ->).
    destruct (dstName dst (Name (it_hdr it))) as [name|e] eqn:Hd.
    + apply dstName_Ok in Hd as [Hname Hp].
      destruct (store sha256_Sum dst tr1 (it_hdr it) name (emit EvTarNext w))
        as [[err tr2] w2] eqn:Hst.
      pose proof (store_end _ _ _ _ _ _ _ _ Hst) as Hend2.
      destruct (store_log _ _ _ _ _ _ _ _ _ Hst) as (Hit2 & _).
      destruct (store_events _ _ _ _ _ _ _ _ Hp Hst) as (evs & Hlog & Hev & Hmk).
      simpl in Hlog.
      destruct err as [e|].
      * intros [= <- <- <-]. exists (EvTarNext :: evs).
        split; [rewrite Hlog; log_eq|]. split; [by constructor|]. discriminate.
      * intros Hex. apply IH in Hex as (evs' & Hlog' & Hev' & Hnone).
        exists (EvTarNext :: evs ++ evs').
        split; [rewrite Hlog', Hlog; log_eq|].
        split; [constructor; [done|]; by apply Forall_app|].
        intros ->. destruct (Hnone eq_refl) as (He & Hall & Hmk').
        rewrite Hit. split; [congruence|]. split.
        -- constructor; [unfold target, under; by rewrite <- Hname|]. by rewrite <- Hit2.
        -- change (mkdirall_paths (EvTarNext :: evs ++ evs'))
             with (mkdirall_paths (evs ++ evs')).
           rewrite mkdirall_paths_app, Hmk, Hmk', Hit2. simpl.
           unfold target at 2. by rewrite <- Hname.
    + intros [= <- <- <-]. exists [EvTarNext]. split; [done|].
      split; [by repeat constructor|]. discriminate.
  - destruct HN as [Hnil ->].
    destruct (is_EOF (tr_end_err tr)) eqn:HE; intros [= <- <- <-];
      exists [EvTarNext]; (split; [done|]); (split; [by repeat constructor|]);
      [|discriminate].
    intros _. rewrite Hnil. split; [by apply is_EOF_eq|]. by split.
Qed.

(** How [Fetch] ends once the rollback is deferred, by the outcome of the
    loop. *)
Lemma Fetch_extract_cases file dst tr w :
  exists r tr' w',
    extract sha256_Sum (Datatypes.S (length (tr_items tr))) dst tr w = Some (r, tr', w')
    /\ Fetch_extract sha256_Sum file dst tr w =
       match r with
       | Some e => (false, Some e, w')
       | None =>
           if String.eqb (fmt.hex_bytes (sha256_Sum (hr_h (tr_hr tr')))) (Sha256 file)
           then (true, None, w')
           else (false,
                 Some (ErrChecksum
                         (fmt.hex_string (fmt.hex_bytes (sha256_Sum (hr_h (tr_hr tr')))))
                         (Sha256 file)), w')
       end.
Proof.
  unfold Fetch_extract.
  destruct (extract_enough sha256_Sum (Datatypes.S (length (tr_items tr))) dst tr w)
    as [[[r tr'] w'] Hex]; [lia|].
  exists r, tr', w'. split; [done|]. rewrite Hex.
  destruct r; [done|]. cbn [hash_Sum sha256_New]. by destruct (String.eqb _ _).
Qed.

(** What a [nil] from [Fetch] tells. *)
Lemma Fetch_None_inv file dst w :
  (Fetch http_Get sha256_Sum file dst w).1 = None ->
  validated file dst w
  /\ exists resp tr' w',
      http_Get (url_of file) = Ok resp
      /\ StatusCode resp = 200%Z
      /\ gz_err (Body resp) = None
      /\ extract sha256_Sum (Datatypes.S (length (items (Body resp)))) (dst_root dst)
                 (start_reader sha256_Sum (Body resp))
                 (emit EvGzipNewReader (downloading file dst w))
         = Some (None, tr', w')
      /\ fmt.hex_bytes (sha256_Sum (hr_h (tr_hr tr'))) = Sha256 file
      /\ (Fetch http_Get sha256_Sum file dst w).2 = emit EvBodyClose (emit EvGzipClose w').
Proof.
  intros Hnone.
  assert (Hval : validated file dst w).
  { revert Hnone. unfold Fetch, validated.
    destruct (Strings.HasSuffix (Filename file) ".tar.gz"); cbn [negb]; [|discriminate].
    cbn [fs emit].
    destruct (os_Stat dst (fs w)) as [fi|e]; [|by destruct (os_IsNotExist e)].
    destruct (IsDir fi) eqn:Hdir; cbn [negb]; [|discriminate].
    destruct (os_Stat (Path.Join [dst; "go"]) (fs w)) as [fi'|e]; [discriminate|].
    intros _. split; [done|]. split; by eexists. }
  split; [done|]. revert Hnone. rewrite Fetch_validated by done.
  destruct (http_Get (url_of file)) as [resp|e]; [|discriminate].
  destruct (StatusCode resp =? 200)%Z eqn:Hcode; cbn [negb]; [|discriminate].
  apply Z.eqb_eq in Hcode. rewrite Fetch_body_eq.
  destruct (gz_err (Body resp)) as [e|] eqn:Hgz; [discriminate|].
  destruct (Fetch_extract_cases file (dst_root dst) (start_reader sha256_Sum (Body resp))
              (emit EvGzipNewReader (downloading file dst w)))
    as (r & tr' & w' & Hex & ->).
  change (tr_items (start_reader sha256_Sum (Body resp))) with (items (Body resp)) in Hex.
  destruct r as [e|]; [discriminate|].
  destruct (String.eqb _ _) eqn:Hsum; [|discriminate].
  apply String.eqb_eq in Hsum. cbn [fst snd negb]. intros _.
  by exists resp, tr', w'.
Qed.

(** X4.  When [Fetch] returns [nil]: its checks had passed and the server
    had answered 200 with a gzip header; the tar reader ended on [io.EOF];
    the name of every entry of the archive resolved to a path under the
    destination; and between [gzip.NewReader] and the closing of the two
    streams [Fetch] called only the tar reader and the file system on
    paths under the destination, with one [MkdirAll] per entry, on the
    directory of its target, in the order of the archive.  In particular
    it never called [os.RemoveAll]. *)
Theorem Fetch_success file dst w :
  (Fetch http_Get sha256_Sum file dst w).1 = None ->
  validated file dst w
  /\ exists resp,
      http_Get (url_of file) = Ok resp
      /\ StatusCode resp = 200%Z
      /\ gz_err (Body resp) = None
      /\ end_err (Body resp) = io_EOF
      /\ Forall (fun it => under (dst_root dst) (target (dst_root dst) it))
                (items (Body resp))
      /\ exists evs,
          log (Fetch http_Get sha256_Sum file dst w).2
          = log (downloading file dst w)
            ++ EvGzipNewReader :: evs ++ [EvGzipClose; EvBodyClose]
          /\ Forall (loop_event (dst_root dst)) evs
          /\ mkdirall_paths evs
             = map (fun it => Path.Dir (target (dst_root dst) it)) (items (Body resp)).
Proof.
  intros Hnone.
  destruct (Fetch_None_inv file dst w Hnone)
    as (Hval & resp & tr' & w' & Hget & Hcode & Hgz & Hex & _ & Hw).
  split; [done|]. exists resp. repeat (split; [done|]).
  destruct (extract_events _ _ _ _ _ _ _ Hex) as (evs & Hlog & Hev & Hn).
  destruct (Hn eq_refl) as (Hend & Hall & Hmk).
  split; [exact Hend|]. split; [exact Hall|].
  exists evs. split; [|by split]. rewrite Hw. simpl. rewrite Hlog. log_eq.
Qed.

(** *** Every call of [Fetch] *)

Lemma loop_event_fetch file dst e :
  loop_event (dst_root dst) e -> fetch_event file dst e.
Proof. by destruct e. Qed.

(** X5.  Whatever the file, the destination, the server and the file
    system: [Fetch] stats the destination and its [go] subdirectory only,
    requests the address made of the file name only, and every call that
    can change the file system is on a path that begins with the cleaned
    destination followed by a slash ([MkdirAll]: on the directory of such
    a path), or is [RemoveAll] on the [go] subdirectory. *)
Theorem Fetch_calls_within file dst w :
  exists evs,
    log (Fetch http_Get sha256_Sum file dst w).2 = log w ++ evs
    /\ Forall (fetch_event file dst) evs.
Proof.
  assert (Hlog : forall (r : option error * World S) evs,
             log r.2 = log w ++ evs -> Forall (fetch_event file dst) evs ->
             exists evs, log r.2 = log w ++ evs /\ Forall (fetch_event file dst) evs).
  { intros r evs ? ?. by exists evs. }
  destruct (Strings.HasSuffix (Filename file) ".tar.gz") eqn:Hsuf.
  2:{ unfold Fetch. rewrite Hsuf. apply (Hlog _ []); [log_eq | done]. }
  destruct (os_Stat dst (fs w)) as [fi|e] eqn:Hst.
  2:{ unfold Fetch. rewrite Hsuf. cbn [negb fs emit]. rewrite Hst.
      destruct (os_IsNotExist e); apply (Hlog _ [EvStat dst]); try done; each_event. }
  destruct (IsDir fi) eqn:Hdir.
  2:{ unfold Fetch. rewrite Hsuf. cbn [negb fs emit]. rewrite Hst, Hdir.
      apply (Hlog _ [EvStat dst]); try done. each_event. }
  destruct (os_Stat (Path.Join [dst; "go"]) (fs w)) as [fi'|e] eqn:Hgo.
  { unfold Fetch. rewrite Hsuf. cbn [negb fs emit]. rewrite Hst, Hdir, Hgo.
    apply (Hlog _ [EvStat dst; EvStat (Path.Join [dst; "go"])]); [log_eq|].
    each_event. }
  assert (Hpre : Forall (fetch_event file dst)
                   [EvStat dst; EvStat (Path.Join [dst; "go"]); EvHttpGet (url_of file)]).
  { each_event. }
  rewrite Fetch_validated by (split; [done|]; split; eauto).
  destruct (http_Get (url_of file)) as [resp|gerr].
  2:{ apply (Hlog _ [EvStat dst; EvStat (Path.Join [dst; "go"]); EvHttpGet (url_of file)]);
        [log_eq | done]. }
  destruct (negb (StatusCode resp =? 200)%Z).
  { apply (Hlog _ ([EvStat dst; EvStat (Path.Join [dst; "go"]); EvHttpGet (url_of file)]
                   ++ [EvBodyClose])); [log_eq|].
    apply Forall_app. split; [done|]. each_event. }
  rewrite Fetch_body_eq.
  destruct (gz_err (Body resp)) as [gerr|].
  { apply (Hlog _ ([EvStat dst; EvStat (Path.Join [dst; "go"]); EvHttpGet (url_of file)]
                   ++ [EvGzipNewReader; EvBodyClose])); [log_eq|].
    apply Forall_app. split; [done|]. each_event. }
  destruct (Fetch_extract_cases file (dst_root dst) (start_reader sha256_Sum (Body resp))
              (emit EvGzipNewReader (downloading file dst w)))
    as (r & tr' & w' & Hex & ->).
  destruct (extract_events _ _ _ _ _ _ _ Hex) as (evs & Hl & Hev & _).
  simpl in Hl.
  assert (Hev' : Forall (fetch_event file dst) evs).
  { eapply Forall_impl; [exact Hev|]. intros e0. apply loop_event_fetch. }
  assert (Hroll :
             exists evs0,
               log (emit EvBodyClose (emit EvGzipClose
                      (mkWorld (os_RemoveAll (Path.Join [dst_root dst; "go"]) (fs w')).2
                         (log w' ++ [EvRemoveAll (Path.Join [dst_root dst; "go"])]))))
               = log w ++ evs0 /\ Forall (fetch_event file dst) evs0).
  { exists ([EvStat dst; EvStat (Path.Join [dst; "go"]); EvHttpGet (url_of file)]
            ++ EvGzipNewReader :: evs
            ++ [EvRemoveAll (Path.Join [dst_root dst; "go"]); EvGzipClose; EvBodyClose]).
    split; [simpl; rewrite Hl; log_eq|].
    apply Forall_app. split; [done|]. constructor; [done|].
    apply Forall_app. split; [done|]. each_event. }
  destruct r as [e0|]; cbn [fst snd negb]; [apply Hroll|].
  destruct (String.eqb _ _); cbn [fst snd negb]; [|apply Hroll].
  exists ([EvStat dst; EvStat (Path.Join [dst; "go"]); EvHttpGet (url_of file)]
          ++ EvGzipNewReader :: evs ++ [EvGzipClose; EvBodyClose]).
  split; [simpl; rewrite Hl; log_eq|].
  apply Forall_app. split; [done|]. constructor; [done|].
  apply Forall_app. split; [done|]. each_event.
Qed.

Lemma loop_event_not_close root e : loop_event root e -> ~ is_close e.
Proof. destruct e; simpl; try done; intros _ [?|?]; discriminate. Qed.

(** X6.  Once the checks have passed: when [http.Get] fails, [Fetch]
    returns the error wrapped in "downloading file" and closes nothing.
    When it gives a response, [Fetch] closes the body exactly once, as
    its last call, on every path; and it closes the gzip reader exactly
    once, just before, when the status is 200 and [gzip.NewReader]
    succeeded, and never otherwise. *)
Theorem Fetch_closes_streams file dst w :
  validated file dst w ->
  match http_Get (url_of file) with
  | Err e =>
      Fetch http_Get sha256_Sum file dst w
      = (Some (ErrDownloading e), downloading file dst w)
  | Ok resp =>
      exists evs,
        log (Fetch http_Get sha256_Sum file dst w).2
        = log (downloading file dst w) ++ evs ++ [EvBodyClose]
        /\ match (StatusCode resp =? 200)%Z, gz_err (Body resp) with
           | true, None =>
               exists evs', evs = EvGzipNewReader :: evs' ++ [EvGzipClose]
                            /\ Forall (fun e => ~ is_close e) evs'
           | _, _ => Forall (fun e => ~ is_close e) evs
           end
  end.
Proof.
  intros Hval. rewrite Fetch_validated by done.
  destruct (http_Get (url_of file)) as [resp|e]; [|done].
  destruct (StatusCode resp =? 200)%Z; cbn [negb].
  2:{ exists []. split; [log_eq|]. by destruct (gz_err (Body resp)). }
  rewrite Fetch_body_eq.
  destruct (gz_err (Body resp)) as [gerr|].
  { exists [EvGzipNewReader]. split; [log_eq|].
    repeat constructor. intros [?|?]; discriminate. }
  destruct (Fetch_extract_cases file (dst_root dst) (start_reader sha256_Sum (Body resp))
              (emit EvGzipNewReader (downloading file dst w)))
    as (r & tr' & w' & Hex & ->).
  destruct (extract_events _ _ _ _ _ _ _ Hex) as (evs & Hl & Hev & _).
  simpl in Hl.
  assert (Hev' : Forall (fun e => ~ is_close e) evs).
  { eapply Forall_impl; [exact Hev|]. intros e0. apply loop_event_not_close. }
  assert (Hroll :
             exists evs0,
               log (emit EvBodyClose (emit EvGzipClose
                      (mkWorld (os_RemoveAll (Path.Join [dst_root dst; "go"]) (fs w')).2
                         (log w' ++ [EvRemoveAll (Path.Join [dst_root dst; "go"])]))))
               = log (downloading file dst w) ++ evs0 ++ [EvBodyClose]
               /\ exists evs', evs0 = EvGzipNewReader :: evs' ++ [EvGzipClose]
                               /\ Forall (fun e => ~ is_close e) evs').
  { exists (EvGzipNewReader
            :: (evs ++ [EvRemoveAll (Path.Join [dst_root dst; "go"])]) ++ [EvGzipClose]).
    split; [simpl; rewrite Hl; log_eq|].
    eexists. split; [reflexivity|]. apply Forall_app. split; [done|].
    repeat constructor. intros [?|?]; discriminate. }
  destruct r as [e0|]; cbn [fst snd negb]; [apply Hroll|].
  destruct (String.eqb _ _); cbn [fst snd negb]; [|apply Hroll].
  exists (EvGzipNewReader :: evs ++ [EvGzipClose]).
  split; [simpl; rewrite Hl; log_eq|]. by exists evs.
Qed.

(** *** The bytes behind the digest *)










Lemma extract_at_end fuel dst tr w :
  tr_items tr = [] ->
  extract sha256_Sum (Datatypes.S fuel) dst tr w
  = Some (if is_EOF (tr_end_err tr) then None else Some (ErrNextHeader (tr_end_err tr)),
          mkTar sha256_Sum
                (hr_consume sha256_Sum (tr_end_raw tr)
                   (hr_consume sha256_Sum (concat (map t_raw (tr_cur tr))) (tr_hr tr)))
                [] [] [] (tr_end_err tr),
          emit EvTarNext w).
Proof.
  intros Hnil. simpl. unfold tar_Next. rewrite Hnil. by destruct (is_EOF _).
Qed.

(** X8.  An archive without entries: when the checks pass, the server
    answers 200 with a gzip header, the tar reader reports [io.EOF] at
    once and the digest of what was read is the expected one, [Fetch]
    returns [nil] and has made no call on the file system but its two
    calls of [os.Stat]: the file system is left as it was. *)
Theorem Fetch_no_entries file dst w resp :
  validated file dst w ->
  http_Get (url_of file) = Ok resp ->
  StatusCode resp = 200%Z ->
  gz_err (Body resp) = None ->
  items (Body resp) = [] ->
  end_err (Body resp) = io_EOF ->
  fmt.hex_bytes
    (sha256_Sum (hr_h (hr_consume sha256_Sum (end_raw (Body resp))
                                  (tr_hr (start_reader sha256_Sum (Body resp))))))
  = Sha256 file ->
  Fetch http_Get sha256_Sum file dst w
  = (None,
     mkWorld (fs w)
             (log w ++ [EvStat dst; EvStat (Path.Join [dst; "go"]); EvHttpGet (url_of file);
                        EvGzipNewReader; EvTarNext; EvGzipClose; EvBodyClose])).
Proof.
  intros Hval Hget Hcode Hgz Hitems Hend Hsum.
  rewrite Fetch_validated, Hget, Hcode by done. cbn [Z.eqb Pos.eqb negb].
  rewrite Fetch_body_eq, Hgz. unfold Fetch_extract.
  assert (Hex : extract sha256_Sum
                  (Datatypes.S (length (tr_items (start_reader sha256_Sum (Body resp)))))
                  (dst_root dst) (start_reader sha256_Sum (Body resp))
                  (emit EvGzipNewReader (downloading file dst w))
                = Some (None,
                        mkTar sha256_Sum
                          (hr_consume sha256_Sum (end_raw (Body resp))
                             (tr_hr (start_reader sha256_Sum (Body resp))))
                          [] [] [] io_EOF,
                        emit EvTarNext (emit EvGzipNewReader (downloading file dst w)))).
  { rewrite extract_at_end by exact Hitems.
    change (tr_end_err (start_reader sha256_Sum (Body resp))) with (end_err (Body resp)).
    rewrite Hend. reflexivity. }
  rewrite Hex. cbn [tr_hr hash_Sum sha256_New].
  rewrite Hsum, String.eqb_refl. cbn [negb fst snd]. f_equal.
  unfold downloading, emit. cbn [fs log]. f_equal. log_eq.
Qed.

Lemma hex_bytes_length b : String.length (fmt.hex_bytes b) = (2 * length b)%nat.
Proof. induction b as [|x b IH]; simpl; [done|]. rewrite IH. lia. Qed.

Lemma list_ascii_length s : length (list_ascii_of_string s) = String.length s.
Proof. induction s as [|c s IH]; simpl; [done|]. by rewrite IH. Qed.

Lemma hex_string_length s : String.length (fmt.hex_string s) = (2 * String.length s)%nat.
Proof.
  unfold fmt.hex_string. by rewrite hex_bytes_length, length_map, list_ascii_length.
Qed.

(** X11.  The text of the checksum-mismatch error: [Fetch] formats with
    [%x] the digest text, which is hexadecimal already.  What the error
    shows as the digest it got is therefore the hexadecimal encoding of
    that text, four characters for each byte of the digest, and not the
    text that was compared with [file.Sha256]. *)
Theorem Fetch_mismatch_text file dst w resp tr' w' :
  validated file dst w ->
  http_Get (url_of file) = Ok resp ->
  StatusCode resp = 200%Z ->
  gz_err (Body resp) = None ->
  extract sha256_Sum (Datatypes.S (length (items (Body resp)))) (dst_root dst)
          (start_reader sha256_Sum (Body resp))
          (emit EvGzipNewReader (downloading file dst w))
  = Some (None, tr', w') ->
  fmt.hex_bytes (sha256_Sum (hr_h (tr_hr tr'))) <> Sha256 file ->
  exists got,
    (Fetch http_Get sha256_Sum file dst w).1 = Some (ErrChecksum got (Sha256 file))
    /\ got = fmt.hex_string (fmt.hex_bytes (sha256_Sum (hr_h (tr_hr tr'))))
    /\ String.length got = (4 * length (sha256_Sum (hr_h (tr_hr tr'))))%nat
    /\ (sha256_Sum (hr_h (tr_hr tr')) <> [] ->
        got <> fmt.hex_bytes (sha256_Sum (hr_h (tr_hr tr')))).
Proof.
  intros Hval Hget Hcode Hgz Hex Hne.
  exists (fmt.hex_string (fmt.hex_bytes (sha256_Sum (hr_h (tr_hr tr'))))).
  assert (Hlen : String.length (fmt.hex_string (fmt.hex_bytes (sha256_Sum (hr_h (tr_hr tr')))))
                 = (4 * length (sha256_Sum (hr_h (tr_hr tr'))))%nat).
  { rewrite hex_string_length, hex_bytes_length. lia. }
  split; [|split; [done|split; [exact Hlen|]]].
  - rewrite Fetch_validated, Hget, Hcode by done. cbn [Z.eqb Pos.eqb negb fst].
    rewrite Fetch_body_eq, Hgz. cbn [fst snd].
    unfold Fetch_extract.
    change (tr_items (start_reader sha256_Sum (Body resp))) with (items (Body resp)).
    rewrite Hex. cbn [hash_Sum sha256_New].
    apply String.eqb_neq in Hne. by rewrite Hne.
  - intros Hnil Heq. apply (f_equal String.length) in Heq.
    rewrite Hlen, hex_bytes_length in Heq.
    destruct (sha256_Sum (hr_h (tr_hr tr'))); [done | simpl in Heq; lia].
Qed.

End Fetch_more.

(* ===================================================================== *)
(** * [path.Clean] and the destinations [.] and [/] *)
(* ===================================================================== *)

Lemma okstart_app o x : okstart o -> o <> [] -> okstart (o ++ x).
Proof.
  destruct o as [|c t]; [done|]. intros [Hc Hd] _. simpl. split; [done|].
  intros Hdot. specialize (Hd Hdot). by destruct t.
Qed.

Lemma okstart_cut o1 o2 : okstart (o1 ++ Path.slash :: o2) -> okstart o1.
Proof.
  destruct o1 as [|c t]; [done|]. simpl. intros [Hc Hd]. split; [done|].
  intros Hdot. specialize (Hd Hdot). destruct t; [|done].
  simpl in Hd. discriminate.
Qed.

(** Where the backward loop of the [..] case stops: at the front of the
    buffer, at [dotdot], or just before a slash. *)
Lemma backtrack_spec dotdot last ro :
  let R := Path.backtrack dotdot last ro in
  (exists Y, rev ro ++ [last] = rev R ++ Y
             /\ (R = [] \/ (length R <= dotdot)%nat \/ exists Y', Y = Path.slash :: Y'))
  /\ ((dotdot <= length ro)%nat -> (dotdot <= length R)%nat).
Proof.
  revert last. induction ro as [|c ro IH]; intros last; simpl.
  - split; [|done]. exists [last]. split; [done|]. by left.
  - destruct ((dotdot <? Datatypes.S (length ro))%nat && negb (Ascii.eqb last Path.slash))
      eqn:E.
    + apply andb_true_iff in E as [E1 E2]. apply Nat.ltb_lt in E1.
      destruct (IH c) as [(Y & HY & Hstop) Hlen]. split.
      * exists (Y ++ [last]). split; [by rewrite HY, <- app_assoc|].
        destruct Hstop as [?|[?|[Y' ->]]]; [by left | by right; left |].
        right; right. by eexists.
      * intros _. apply Hlen. lia.
    + split; [|done]. exists [last]. split; [done|].
      apply andb_false_iff in E as [E|E].
      * apply Nat.ltb_ge in E. right; left. simpl. lia.
      * apply negb_false_iff, Ascii.eqb_eq in E. subst last. right; right. by eexists.
Qed.

Lemma span_elem_head c s :
  c <> Path.slash ->
  exists e1, (Path.span_elem (c :: s)).1 = c :: e1
             /\ (Path.end_or_slash s = false -> Path.end_or_slash e1 = false).
Proof.
  intros Hc. simpl. apply Ascii.eqb_neq in Hc. rewrite Hc.
  destruct (Path.span_elem s) as [e1 rest] eqn:E. exists e1. split; [done|].
  destruct s as [|c1 s]; [done|]. simpl in *. intros Hs. rewrite Hs in E.
  destruct (Path.span_elem s). by inversion E.
Qed.

Lemma prefix2 {A} (a b : A) t p Y :
  a :: b :: t = p ++ Y -> (2 <= length p)%nat -> exists t', p = a :: b :: t'.
Proof.
  destruct p as [|x [|y p]]; simpl; try lia. intros [= -> -> _] _. by eexists.
Qed.

(** The invariant holds all along the loop of [path.Clean]. *)
Lemma clean_loop_inv fuel rooted s ro dotdot :
  clean_inv rooted ro dotdot ->
  exists dotdot', clean_inv rooted (Path.clean_loop fuel rooted s ro dotdot) dotdot'.
Proof.
  revert s ro dotdot. induction fuel as [|fuel IH]; intros s ro dotdot Hinv;
    [by exists dotdot|].
  destruct s as [|c s1]; [by exists dotdot|]. simpl.
  destruct (Ascii.eqb c Path.slash) eqn:Hslash; [by apply IH|].
  apply Ascii.eqb_neq in Hslash.
  destruct (Ascii.eqb c Path.dot && Path.end_or_slash s1) eqn:Hdot1; [by apply IH|].
  destruct (Ascii.eqb c Path.dot
            && match s1 with
               | c1 :: s2 => Ascii.eqb c1 Path.dot && Path.end_or_slash s2
               | [] => false
               end) eqn:Hdot2.
  - (* the element is [..] *)
    destruct (dotdot <? length ro)%nat eqn:Hlt.
    + apply Nat.ltb_lt in Hlt. destruct ro as [|last ro']; [by apply IH|].
      apply IH. simpl in Hlt.
      destruct (backtrack_spec dotdot last ro') as [(Y & HY & Hstop) Hlen].
      simpl in HY, Hstop, Hlen. unfold clean_inv in *. destruct rooted.
      * destruct Hinv as (-> & t & Ht & Hno). split; [done|]. simpl in Ht.
        rewrite HY in Ht.
        assert (Hpos : (1 <= length (Path.backtrack 1 last ro'))%nat) by (apply Hlen; lia).
        destruct (rev (Path.backtrack 1 last ro')) as [|x t'] eqn:Hr.
        { apply (f_equal length) in Hr. rewrite length_rev in Hr. simpl in Hr. lia. }
        simpl in Ht. injection Ht as -> <-. exists t'. split; [done|].
        destruct t'; [done|]. exact Hno.
      * destruct Hinv as [(-> & Hok) | (Hdd & t & Ht)].
        -- left. split; [done|]. simpl in Hok. rewrite HY in Hok.
           destruct Hstop as [->|[Hle|[Y' ->]]]; [done | | by eapply okstart_cut].
           assert (Path.backtrack 0 last ro' = []) as ->; [|done].
           destruct (Path.backtrack 0 last ro'); [done | simpl in Hle; lia].
        -- right. simpl in Ht. rewrite HY in Ht.
           assert (Hl : (dotdot <= length (Path.backtrack dotdot last ro'))%nat)
             by (apply Hlen; lia).
           split; [lia|]. symmetry in Ht.
           apply (prefix2 _ _ _ _ _ Ht). rewrite length_rev. lia.
    + apply Nat.ltb_ge in Hlt. destruct rooted; cbn [negb]; [by apply IH|].
      apply IH. unfold clean_inv in *. right. simpl.
      destruct ro as [|x ro'].
      * simpl. split; [lia|]. by exists [].
      * destruct Hinv as [(-> & _) | (Hdd & t & Ht)]; [simpl in Hlt; lia|].
        change (0 <? length (x :: ro'))%nat with true. cbv iota.
        split; [lia|].
        exists (t ++ [Path.slash; Path.dot; Path.dot]).
        change (rev (Path.slash :: x :: ro')) with (rev (x :: ro') ++ [Path.slash]).
        rewrite Ht. simpl. by rewrite <- !app_assoc.
  - (* a real path element *)
    destruct (span_elem_head c s1 Hslash) as (e1 & He & Hend).
    simpl in He. rewrite (proj2 (Ascii.eqb_neq _ _) Hslash) in He.
    destruct (Path.span_elem s1) as [e rest]. simpl in He. injection He as ->.
    apply IH.
    assert (Hoke : okstart (c :: e1)).
    { split; [done|]. intros ->. apply Hend.
      unfold Path.dot in Hdot1. rewrite Ascii.eqb_refl in Hdot1. exact Hdot1. }
    unfold clean_inv in *. rewrite !rev_append_rev, !rev_app_distr, !rev_involutive.
    destruct rooted; cbn [negb andb orb].
    + destruct Hinv as (-> & t & Ht & Hno). split; [done|].
      destruct (length ro =? 1)%nat eqn:Hone; cbn [negb andb orb].
      * apply Nat.eqb_eq in Hone. rewrite Ht.
        destruct t as [|y t].
        { exists (c :: e1). split; [done|]. exact Hslash. }
        apply (f_equal length) in Ht. rewrite length_rev in Ht. simpl in Ht. lia.
      * apply Nat.eqb_neq in Hone. simpl. rewrite Ht.
        exists (t ++ Path.slash :: c :: e1). split; [by simpl; rewrite <- app_assoc|].
        destruct t as [|y t]; [|exact Hno].
        apply (f_equal length) in Ht. rewrite length_rev in Ht. simpl in Ht. lia.
    + destruct (length ro =? 0)%nat eqn:Hzero; cbn [negb andb orb].
      * apply Nat.eqb_eq in Hzero. destruct ro; [|done]. simpl.
        destruct Hinv as [(-> & _) | (Hdd & _)]; [|simpl in Hdd; lia].
        left. by split.
      * apply Nat.eqb_neq in Hzero. simpl. rewrite <- app_assoc. simpl.
        destruct Hinv as [(-> & Hok) | (Hdd & t & Ht)].
        -- left. split; [done|]. apply okstart_app; [done|].
           intros Hnil. apply (f_equal length) in Hnil. rewrite length_rev in Hnil.
           simpl in Hnil. lia.
        -- right. split.
           ++ rewrite !length_app. simpl. lia.
           ++ rewrite Ht. by eexists.
Qed.

Lemma prefix2_false (x y : ascii) (o : list ascii) :
  (forall t, o <> x :: y :: t) ->
  String.prefix (String x (String y EmptyString)) (string_of_list_ascii o) = false.
Proof.
  intros Hne. destruct o as [|a [|b t]]; cbn [string_of_list_ascii String.prefix].
  - done.
  - by destruct (Ascii.ascii_dec x a).
  - destruct (Ascii.ascii_dec x a) as [->|]; [|done].
    destruct (Ascii.ascii_dec y b) as [->|]; [|done]. by destruct (Hne t).
Qed.

(** [path.Clean] never returns a path that begins with [./] or with two
    slashes. *)
Lemma Clean_start p :
  Strings.HasPrefix (Path.Clean p) "./" = false
  /\ Strings.HasPrefix (Path.Clean p) "//" = false.
Proof.
  unfold Path.Clean, Strings.HasPrefix.
  destruct (list_ascii_of_string p) as [|c s1]; [done|].
  destruct (Ascii.eqb c Path.slash) eqn:Hc.
  - destruct (clean_loop_inv (length (c :: s1)) true s1 [Path.slash] 1) as [d Hinv].
    { split; [done|]. by exists []. }
    destruct Hinv as (_ & t & Ht & Hno).
    destruct (Path.clean_loop _ true s1 [Path.slash] 1) as [|x ro] eqn:E; [done|].
    split; apply prefix2_false; intros t'; rewrite Ht; [done|].
    intros [= ->]. by destruct Hno.
  - destruct (clean_loop_inv (length (c :: s1)) false (c :: s1) [] 0) as [d Hinv].
    { by left. }
    destruct (Path.clean_loop _ false (c :: s1) [] 0) as [|x ro] eqn:E; [done|].
    destruct Hinv as [(_ & Hok) | (_ & t & Ht)].
    + split; apply prefix2_false; intros t' Heq; rewrite Heq in Hok;
        destruct Hok as [Ha Hd]; [|done].
      specialize (Hd eq_refl). simpl in Hd. discriminate.
    + split; apply prefix2_false; intros t'; by rewrite Ht.
Qed.

Section Fetch_dot.
Context {S F : Type} `{!OS S F}.
Variable http_Get : string -> result Response.
Variable sha256_Sum : list byte -> list byte.

(** Below [.] or [/], [dstName] lets no name through. *)
Lemma dstName_dot_or_root dst name :
  Path.Clean dst = "." \/ Path.Clean dst = "/" ->
  dstName (dst_root dst) name
  = Err (ErrBadPath name (Path.Clean (Path.Join [dst_root dst; name])) (dst_root dst)).
Proof.
  intros Hdst. unfold dstName, dst_root.
  destruct Hdst as [-> | ->].
  - change ("." +:+ "/") with "./". by rewrite (proj1 (Clean_start _)).
  - change ("/" +:+ "/") with "//". by rewrite (proj2 (Clean_start _)).
Qed.

(** X9.  A destination that cleans to [.] (the current directory, also
    written [./]) or to [/]: [Fetch] turns it into
    [./] or [//], which no cleaned path begins with, so the first entry of
    any archive is refused.  When the checks pass and the server answers
    200 with a gzip header, [Fetch] fails with the bad-path error on the
    first entry. *)
Theorem Fetch_dot_or_root_refused file dst (w : World S) resp it rest :
  Path.Clean dst = "." \/ Path.Clean dst = "/" ->
  validated file dst w ->
  http_Get (url_of file) = Ok resp ->
  StatusCode resp = 200%Z ->
  gz_err (Body resp) = None ->
  items (Body resp) = it :: rest ->
  (Fetch http_Get sha256_Sum file dst w).1
  = Some (ErrBadPath (Name (it_hdr it)) (target (dst_root dst) it) (dst_root dst)).
Proof.
  intros Hdst Hval Hget Hcode Hgz Hitems.
  rewrite Fetch_validated, Hget, Hcode by done. cbn [Z.eqb Pos.eqb negb fst].
  rewrite Fetch_body_eq, Hgz. cbn [fst]. unfold Fetch_extract.
  cbn [extract]. unfold tar_Next.
  change (tr_items (start_reader sha256_Sum (Body resp))) with (items (Body resp)).
  rewrite Hitems. by rewrite dstName_dot_or_root.
Qed.

End Fetch_dot.

(* ===================================================================== *)
(** ** The further theorems at work *)
(* ===================================================================== *)

Example empty_gz_digest : fmt.hex_bytes (SHA256.Sum empty_gz) = empty_sha256.
Proof. vm_compute. reflexivity. Qed.

Lemma validated_tmp sha : validated (file_of sha) "tmp" w0.
Proof.
  split; [reflexivity|]. split.
  - exists (mkFileInfo true). split; reflexivity.
  - exists (EOS ENOENT). reflexivity.
Qed.

(** A hard link to [go/VERSION]: the link is made to [tmp/go/VERSION]. *)
Lemma store_hard_link_witness :
  Typeflag hdr_hardlink = tar.TypeLink
  /\ dstName "tmp/" (Linkname hdr_hardlink) = Ok "tmp/go/VERSION"
  /\ log (store SHA256.Sum "tmp/" tr0 hdr_hardlink "tmp/go/VERSION.link" w0).2
     = log w0 ++ [EvMkdirAll (Path.Dir "tmp/go/VERSION.link") 511;
                  EvLink "tmp/go/VERSION" "tmp/go/VERSION.link"]
  /\ under "tmp/" "tmp/go/VERSION".
Proof.
  split; [reflexivity|]. split; [reflexivity|].
  destruct (store_hard_link SHA256.Sum "tmp/" tr0 hdr_hardlink "tmp/go/VERSION.link" w0
              "tmp/go/VERSION" eq_refl eq_refl) as (Hst & _ & Hunder).
  split; [by rewrite Hst | exact Hunder].
Defined.

(** [store] of [go/VERSION]: the bytes written are the eight bytes of the
    entry. *)
Lemma store_regular_content_witness :
  Typeflag hdr_VERSION = tar.TypeReg
  /\ exists tr' w',
      store SHA256.Sum "tmp/" tr_VERSION hdr_VERSION "tmp/go/VERSION" w_go = (None, tr', w')
      /\ exists evs,
          log w' = log w_go ++ [EvMkdirAll (Path.Dir "tmp/go/VERSION") 511;
                                EvCreate "tmp/go/VERSION"] ++ evs
                     ++ [EvChmod "tmp/go/VERSION" (Mode hdr_VERSION mod 512)%Z;
                         EvClose "tmp/go/VERSION"]
          /\ written_bytes evs = bytes_of "go1.21.0".
Proof.
  split; [reflexivity|].
  destruct (store SHA256.Sum "tmp/" tr_VERSION hdr_VERSION "tmp/go/VERSION" w_go)
    as [[err tr'] w'] eqn:Hst.
  assert (Herr : err = None).
  { apply (f_equal (fun r => r.1.1)) in Hst. vm_compute in Hst. congruence. }
  subst err. exists tr', w'. split; [reflexivity|].
  destruct (store_regular_content SHA256.Sum "tmp/" tr_VERSION hdr_VERSION
              "tmp/go/VERSION" w_go tr' w' eq_refl Hst) as (_ & evs & Hlog & _ & Hbytes).
  exists evs. split; [exact Hlog|]. rewrite Hbytes. reflexivity.
Defined.

(** [store] of [go/VERSION]: the file is made, and closed at the end. *)
Lemma store_closes_file_witness :
  Typeflag hdr_VERSION = tar.TypeReg
  /\ (os_Create "tmp/go/VERSION" (fs (after_MkdirAll "tmp/go/VERSION" w_go))).1
     = Ok "tmp/go/VERSION"
  /\ exists evs,
      log (store SHA256.Sum "tmp/" tr_VERSION hdr_VERSION "tmp/go/VERSION" w_go).2
      = log w_go ++ [EvMkdirAll (Path.Dir "tmp/go/VERSION") 511;
                     EvCreate "tmp/go/VERSION"] ++ evs ++ [EvClose "tmp/go/VERSION"].
Proof.
  split; [reflexivity|].
  assert (HC : (os_Create "tmp/go/VERSION" (fs (after_MkdirAll "tmp/go/VERSION" w_go))).1
               = Ok "tmp/go/VERSION") by (vm_compute; reflexivity).
  split; [exact HC|].
  pose proof (store_closes_file SHA256.Sum "tmp/" tr_VERSION hdr_VERSION "tmp/go/VERSION"
                w_go eq_refl) as H.
  rewrite HC in H. exact H.
Defined.

(** The successful [Fetch] of the good archive: one [MkdirAll] for [go/],
    one for [go/VERSION]. *)
Lemma Fetch_success_witness :
  (fetch good_body good_sha256 w0).1 = None
  /\ validated (file_of good_sha256) "tmp" w0
  /\ exists evs,
      log (fetch good_body good_sha256 w0).2
      = log (downloading (file_of good_sha256) "tmp" w0)
        ++ EvGzipNewReader :: evs ++ [EvGzipClose; EvBodyClose]
      /\ Forall (loop_event (dst_root "tmp")) evs
      /\ mkdirall_paths evs = ["tmp"; "tmp/go"].
Proof.
  assert (H : (fetch good_body good_sha256 w0).1 = None) by (vm_compute; reflexivity).
  split; [exact H|].
  destruct (Fetch_success (serve good_body) SHA256.Sum (file_of good_sha256) "tmp" w0 H)
    as (Hval & resp & Hget & _ & _ & _ & _ & evs & Hlog & Hevs & Hdirs).
  split; [exact Hval|]. exists evs. split; [exact Hlog|]. split; [exact Hevs|].
  rewrite Hdirs.
  assert (Hresp : resp = mkResponse 200 "200 OK" good_body).
  { assert (Hs : serve good_body (url_of (file_of good_sha256))
                 = Ok (mkResponse 200 "200 OK" good_body)) by reflexivity.
    congruence. }
  subst resp. reflexivity.
Defined.

(** The [Fetch] of the good archive closes the gzip reader, then the
    body. *)
Lemma Fetch_closes_streams_witness :
  validated (file_of good_sha256) "tmp" w0
  /\ exists evs,
      log (fetch good_body good_sha256 w0).2
      = log (downloading (file_of good_sha256) "tmp" w0) ++ evs ++ [EvBodyClose]
      /\ exists evs', evs = EvGzipNewReader :: evs' ++ [EvGzipClose]
                      /\ Forall (fun e => ~ is_close e) evs'.
Proof.
  split; [apply validated_tmp|].
  exact (Fetch_closes_streams (serve good_body) SHA256.Sum (file_of good_sha256) "tmp" w0
           (validated_tmp good_sha256)).
Defined.


(** The archive without entries: [Fetch] succeeds and [tmp] stays empty. *)
Lemma Fetch_no_entries_witness :
  validated (file_of empty_sha256) "tmp" w0
  /\ items empty_body = []
  /\ fetch empty_body empty_sha256 w0
     = (None,
        mkWorld (fs w0)
                (log w0 ++ [EvStat "tmp"; EvStat (Path.Join ["tmp"; "go"]);
                            EvHttpGet (url_of (file_of empty_sha256));
                            EvGzipNewReader; EvTarNext; EvGzipClose; EvBodyClose])).
Proof.
  split; [apply validated_tmp|]. split; [reflexivity|].
  assert (Hsum : fmt.hex_bytes
                   (SHA256.Sum (hr_h (hr_consume SHA256.Sum (end_raw empty_body)
                                        (tr_hr (start_reader SHA256.Sum empty_body)))))
                 = empty_sha256) by (vm_compute; reflexivity).
  exact (Fetch_no_entries (serve empty_body) SHA256.Sum (file_of empty_sha256) "tmp" w0
           (mkResponse 200 "200 OK" empty_body)
           (validated_tmp empty_sha256) eq_refl eq_refl eq_refl eq_refl eq_refl Hsum).
Defined.

(** The good archive fetched into the current directory: the entry [go/]
    is refused. *)
Lemma Fetch_dot_or_root_refused_witness :
  Path.Clean "." = "."
  /\ validated (file_of good_sha256) "." w0
  /\ (Fetch (serve good_body) SHA256.Sum (file_of good_sha256) "." w0).1
     = Some (ErrBadPath "go/" "go" "./").
Proof.
  assert (Hval : validated (file_of good_sha256) "." w0).
  { split; [reflexivity|]. split.
    - exists (mkFileInfo true). split; reflexivity.
    - exists (EOS ENOENT). reflexivity. }
  split; [reflexivity|]. split; [exact Hval|].
  exact (Fetch_dot_or_root_refused (serve good_body) SHA256.Sum (file_of good_sha256) "." w0
           (mkResponse 200 "200 OK" good_body)
           (mkItem [] hdr_go [])
           [mkItem [] hdr_VERSION [mkTread [] (bytes_of "go1.21.0") (Some io_EOF)]]
           (or_introl eq_refl) Hval eq_refl eq_refl eq_refl eq_refl).
Defined.

(** [store] of [go/VERSION] closes the file once. *)
Lemma store_close_twice_witness :
  Typeflag hdr_VERSION = tar.TypeReg
  /\ (os_Create "tmp/go/VERSION" (fs (after_MkdirAll "tmp/go/VERSION" w_go))).1
     = Ok "tmp/go/VERSION"
  /\ exists evs,
      log (store SHA256.Sum "tmp/" tr_VERSION hdr_VERSION "tmp/go/VERSION" w_go).2
      = log w_go ++ [EvMkdirAll (Path.Dir "tmp/go/VERSION") 511;
                     EvCreate "tmp/go/VERSION"] ++ evs
      /\ closes evs = 1%nat.
Proof.
  split; [reflexivity|].
  assert (HC : (os_Create "tmp/go/VERSION" (fs (after_MkdirAll "tmp/go/VERSION" w_go))).1
               = Ok "tmp/go/VERSION") by (vm_compute; reflexivity).
  split; [exact HC|].
  assert (Hr : (store SHA256.Sum "tmp/" tr_VERSION hdr_VERSION "tmp/go/VERSION" w_go).1.1
               = None) by (vm_compute; reflexivity).
  destruct (store_close_twice SHA256.Sum "tmp/" tr_VERSION hdr_VERSION "tmp/go/VERSION"
              w_go "tmp/go/VERSION" eq_refl HC) as (evs & Hlog & Hn).
  rewrite Hr in Hn. exists evs. split; [exact Hlog | exact Hn].
Defined.

(** The good archive with its digest in upper case: the error shows 128
    characters, the digest text has 64. *)
Lemma Fetch_mismatch_text_witness :
  validated (file_of good_sha256_upper) "tmp" w0
  /\ exists got,
      (fetch good_body good_sha256_upper w0).1
      = Some (ErrChecksum got good_sha256_upper)
      /\ String.length got = 128%nat
      /\ String.length good_sha256_upper = 64%nat.
Proof.
  split; [apply validated_tmp|].
  destruct (extract SHA256.Sum 3 (dst_root "tmp") (start_reader SHA256.Sum good_body)
              (emit EvGzipNewReader (downloading (file_of good_sha256_upper) "tmp" w0)))
    as [[[r tr'] w']|] eqn:Hex.
  2:{ apply (f_equal (fun o => match o with Some _ => true | None => false end)) in Hex.
      vm_compute in Hex. discriminate. }
  assert (Hr : r = None).
  { apply (f_equal (fun o => match o with Some (r, _, _) => r | None => None end)) in Hex.
    vm_compute in Hex. congruence. }
  subst r.
  assert (Hsum : match extract SHA256.Sum 3 (dst_root "tmp")
                         (start_reader SHA256.Sum good_body)
                         (emit EvGzipNewReader
                               (downloading (file_of good_sha256_upper) "tmp" w0)) with
                 | Some (_, tr, _) => SHA256.Sum (hr_h (tr_hr tr))
                 | None => []
                 end = SHA256.Sum good_gz) by (vm_compute; reflexivity).
  rewrite Hex in Hsum. cbv beta iota in Hsum.
  assert (Hne : fmt.hex_bytes (SHA256.Sum (hr_h (tr_hr tr'))) <> good_sha256_upper).
  { rewrite Hsum. apply String.eqb_neq. vm_compute. reflexivity. }
  destruct (Fetch_mismatch_text (serve good_body) SHA256.Sum (file_of good_sha256_upper)
              "tmp" w0 (mkResponse 200 "200 OK" good_body) tr' w'
              (validated_tmp good_sha256_upper) eq_refl eq_refl eq_refl Hex Hne)
    as (got & Hres & _ & Hlen & _).
  exists got. split; [exact Hres|]. split; [|reflexivity].
  rewrite Hlen, Hsum. vm_compute. reflexivity.
Defined.
